(** * BNTF document manager: catalog generation, publish and notification

    A shallow embedding of [update-and-sync-ios.py].

    Data.  A Python [str] is represented by a [string] of bytes, its UTF-8
    encoding.  The name of a file need not be UTF-8: Python reads a byte of
    a name that is not part of a well-formed sequence as the lone surrogate
    U+DC00 + byte (the file system encoding being UTF-8, with the error
    handler surrogateescape), and such a code point is represented here by
    the byte it stands for, so that a file name is the bytes the directory
    holds.  [code_points] reads a string as Python does; [.encode()] and
    [urllib.parse.quote] raise [UnicodeEncodeError] on a string that holds a
    surrogate, and strings are compared code point by code point.  A Python
    [int] is a [Z], a [dict] with string keys a [gmap string _], a list a
    [list].  [hashlib.md5] is the function of RFC 1321, written out.

    Effects.  Everything the script reads from the outside (directory
    listings, file metadata and bytes, the clock, the outcome of every
    subprocess and of every file write) is a field of the record [World].
    Everything it does to the outside (a log line, the launch of a
    subprocess, an attempt to write a JSON file) is an [event]; a computation
    is the list of events it produced with the way it ended, a value or a
    raised exception.  Path handling is that of POSIX.  A line handed to
    [print] is taken to be printed: whether the standard output can take it
    is the configuration of the process, not a matter of the script. *)

From Stdlib Require Import ZArith Ascii String.
From stdpp Require Import base tactics option list sorting numbers strings pretty gmap fin_maps.

Local Open Scope string_scope.
Local Open Scope list_scope.
Local Open Scope Z_scope.

(** ** hashlib.md5 *)

Module MD5.

Definition word_mod : Z := 2 ^ 32.

Definition add32 (a b : Z) : Z := (a + b) mod word_mod.

Definition not32 (a : Z) : Z := Z.lxor a (word_mod - 1).

Definition rotl32 (x c : Z) : Z :=
  Z.lor (Z.shiftl x c mod word_mod) (Z.shiftr x (32 - c)).

Definition shifts : list Z :=
  [7; 12; 17; 22; 7; 12; 17; 22; 7; 12; 17; 22; 7; 12; 17; 22;
   5; 9; 14; 20; 5; 9; 14; 20; 5; 9; 14; 20; 5; 9; 14; 20;
   4; 11; 16; 23; 4; 11; 16; 23; 4; 11; 16; 23; 4; 11; 16; 23;
   6; 10; 15; 21; 6; 10; 15; 21; 6; 10; 15; 21; 6; 10; 15; 21].

Definition sines : list Z :=
  [0xd76aa478; 0xe8c7b756; 0x242070db; 0xc1bdceee;
   0xf57c0faf; 0x4787c62a; 0xa8304613; 0xfd469501;
   0x698098d8; 0x8b44f7af; 0xffff5bb1; 0x895cd7be;
   0x6b901122; 0xfd987193; 0xa679438e; 0x49b40821;
   0xf61e2562; 0xc040b340; 0x265e5a51; 0xe9b6c7aa;
   0xd62f105d; 0x02441453; 0xd8a1e681; 0xe7d3fbc8;
   0x21e1cde6; 0xc33707d6; 0xf4d50d87; 0x455a14ed;
   0xa9e3e905; 0xfcefa3f8; 0x676f02d9; 0x8d2a4c8a;
   0xfffa3942; 0x8771f681; 0x6d9d6122; 0xfde5380c;
   0xa4beea44; 0x4bdecfa9; 0xf6bb4b60; 0xbebfbc70;
   0x289b7ec6; 0xeaa127fa; 0xd4ef3085; 0x04881d05;
   0xd9d4d039; 0xe6db99e5; 0x1fa27cf8; 0xc4ac5665;
   0xf4292244; 0x432aff97; 0xab9423a7; 0xfc93a039;
   0x655b59c3; 0x8f0ccc92; 0xffeff47d; 0x85845dd1;
   0x6fa87e4f; 0xfe2ce6e0; 0xa3014314; 0x4e0811a1;
   0xf7537e82; 0xbd3af235; 0x2ad7d2bb; 0xeb86d391].

(** The four chaining variables A, B, C, D. *)
Record state := State { sA : Z; sB : Z; sC : Z; sD : Z }.

Definition init : state :=
  State 0x67452301 0xefcdab89 0x98badcfe 0x10325476.

(** The round function and the index of the message word of step [i]. *)
Definition mix (i b c d : Z) : Z :=
  if i <? 16 then Z.lor (Z.land b c) (Z.land (not32 b) d)
  else if i <? 32 then Z.lor (Z.land d b) (Z.land (not32 d) c)
  else if i <? 48 then Z.lxor (Z.lxor b c) d
  else Z.lxor c (Z.lor b (not32 d)).

Definition word_index (i : Z) : Z :=
  if i <? 16 then i
  else if i <? 32 then (5 * i + 1) mod 16
  else if i <? 48 then (3 * i + 5) mod 16
  else (7 * i) mod 16.

Definition step (m : list Z) (st : state) (i : nat) : state :=
  let iz := Z.of_nat i in
  let f := add32 (add32 (add32 (mix iz (sB st) (sC st) (sD st)) (sA st))
                        (nth i sines 0))
                 (nth (Z.to_nat (word_index iz)) m 0) in
  State (sD st) (add32 (sB st) (rotl32 f (nth i shifts 0))) (sB st) (sC st).

(** One 64-byte block, given as its sixteen little-endian words. *)
Definition compress (st : state) (m : list Z) : state :=
  let st' := foldl (step m) st (seq 0 64) in
  State (add32 (sA st) (sA st')) (add32 (sB st) (sB st'))
        (add32 (sC st) (sC st')) (add32 (sD st) (sD st')).

Definition le_bytes (n : nat) (x : Z) : list Z :=
  map (fun k => Z.shiftr x (8 * Z.of_nat k) mod 256) (seq 0 n).

Fixpoint le_word (bs : list Z) : Z :=
  match bs with
  | [] => 0
  | b :: bs' => b + 256 * le_word bs'
  end.

Fixpoint words (n : nat) (bs : list Z) : list Z :=
  match n with
  | O => []
  | S n' => le_word (take 4 bs) :: words n' (drop 4 bs)
  end.

Fixpoint blocks (n : nat) (bs : list Z) : list (list Z) :=
  match n with
  | O => []
  | S n' => words 16 (take 64 bs) :: blocks n' (drop 64 bs)
  end.

(** Padding: a one bit, zeros up to 56 modulo 64, the bit length on 8 bytes. *)
Definition pad (bs : list Z) : list Z :=
  let len := Z.of_nat (length bs) in
  let zeros := Z.to_nat ((55 - len) mod 64) in
  bs ++ [0x80] ++ replicate zeros 0 ++ le_bytes 8 ((8 * len) mod 2 ^ 64).

Definition digest (bs : list Z) : list Z :=
  let p := pad bs in
  let st := foldl compress init (blocks (length p / 64) p) in
  le_bytes 4 (sA st) ++ le_bytes 4 (sB st) ++ le_bytes 4 (sC st)
    ++ le_bytes 4 (sD st).

Definition hex_digit (n : Z) : ascii :=
  match String.get (Z.to_nat n) "0123456789abcdef" with
  | Some c => c
  | None => "0"%char
  end.

Definition hex_byte (b : Z) : string :=
  String (hex_digit (b / 16)) (String (hex_digit (b mod 16)) EmptyString).

Definition hex (bs : list Z) : string :=
  foldr (fun b acc => hex_byte b +:+ acc) "" bs.

Definition bytes_of (s : string) : list Z :=
  map (fun c => Z.of_N (N_of_ascii c)) (list_ascii_of_string s).

(** [hashlib.md5(data).hexdigest()] *)
Definition hexdigest (data : string) : string := hex (digest (bytes_of data)).

End MD5.

(** ** Python values, exceptions and the trace of effects *)

(** [except Exception] catches [Exception] and leaves [SystemExit] (raised by
    [sys.exit]) alone. *)
Inductive exn :=
| Exception (msg : string)
| SystemExit (code : Z).

Inductive pyres (A : Type) :=
| Ret (a : A)
| Raise (e : exn).
Arguments Ret {A} a.
Arguments Raise {A} e.

(** What an operation of the operating system answers: a value, or an
    exception of class [Exception] described by its message. *)
Inductive answer (A : Type) :=
| Gives (a : A)
| Fails (msg : string).
Arguments Gives {A} a.
Arguments Fails {A} msg.

(** A piece of an f-string. *)
Inductive frag :=
| Str (s : string)
| Num (n : Z)
| NumGrouped (n : Z)
| Exc (e : exn).
Coercion Str : string >-> frag.

(** ** Python strings *)

Definition between (lo hi : nat) (a : ascii) : bool :=
  ((lo <=? nat_of_ascii a) && (nat_of_ascii a <=? hi))%nat.

(** The well-formed UTF-8 byte sequences (Unicode, table 3-7): no overlong
    form, no surrogate, nothing above U+10FFFF. *)
Definition continuation : ascii -> bool := between 0x80 0xBF.

Definition well_formed1 (a : ascii) : bool := between 0x00 0x7F a.

Definition well_formed2 (a b : ascii) : bool :=
  between 0xC2 0xDF a && continuation b.

Definition well_formed3 (a b c : ascii) : bool :=
  (between 0xE0 0xE0 a && between 0xA0 0xBF b
   || between 0xE1 0xEC a && continuation b
   || between 0xED 0xED a && between 0x80 0x9F b
   || between 0xEE 0xEF a && continuation b)
  && continuation c.

Definition well_formed4 (a b c d : ascii) : bool :=
  (between 0xF0 0xF0 a && between 0x90 0xBF b
   || between 0xF1 0xF3 a && continuation b
   || between 0xF4 0xF4 a && between 0x80 0x8F b)
  && continuation c && continuation d.

Arguments between : simpl never.
Arguments well_formed1 : simpl never.
Arguments well_formed2 : simpl never.
Arguments well_formed3 : simpl never.
Arguments well_formed4 : simpl never.

(** A code point of a [str]: a Unicode scalar value, kept as its UTF-8
    bytes, or the surrogate U+DC00 + byte that stands for a byte of a file
    name. *)
Inductive char :=
| Scalar (utf8 : string)
| Surrogate (byte : ascii).

(** The code points of the string the bytes [s] stand for, which is
    [os.fsdecode(s)]: where a well-formed sequence starts it is one code
    point, and a byte where none starts is a surrogate. *)
Fixpoint code_points (s : string) : list char :=
  match s with
  | EmptyString => []
  | String a r =>
      if well_formed1 a then Scalar (String a "") :: code_points r
      else
        match r with
        | String b r2 =>
            if well_formed2 a b
            then Scalar (String a (String b "")) :: code_points r2
            else
              match r2 with
              | String c r3 =>
                  if well_formed3 a b c
                  then Scalar (String a (String b (String c "")))
                       :: code_points r3
                  else
                    match r3 with
                    | String d r4 =>
                        if well_formed4 a b c d
                        then Scalar
                               (String a (String b (String c (String d ""))))
                             :: code_points r4
                        else Surrogate a :: code_points r
                    | EmptyString => Surrogate a :: code_points r
                    end
              | EmptyString => Surrogate a :: code_points r
              end
        | EmptyString => Surrogate a :: code_points r
        end
  end.

Definition is_scalar (c : char) : bool :=
  match c with Scalar _ => true | Surrogate _ => false end.

(** The string holds no surrogate: its bytes are well-formed UTF-8. *)
Definition valid_utf8 (s : string) : bool := forallb is_scalar (code_points s).

Definition flatten (l : list string) : string := foldr String.append "" l.

(** The bytes a code point stands for. *)
Definition char_bytes (c : char) : string :=
  match c with Scalar u => u | Surrogate b => String b "" end.

(** The three bytes U+DC00 + [b] would take in UTF-8, were surrogates
    allowed there. *)
Definition escape (b : ascii) : string :=
  String "237"
    (String (if (nat_of_ascii b <? 0xC0)%nat then "178"%char else "179"%char)
       (String (ascii_of_nat (0x80 + nat_of_ascii b mod 64)) "")).

Definition char_key (c : char) : string :=
  match c with Scalar u => u | Surrogate b => escape b end.

(** Python compares strings code point by code point.  In UTF-8, extended
    to the surrogates, the order of the code points is the order of the
    bytes: [str_key s] are those bytes. *)
Definition str_key (s : string) : string :=
  flatten (char_key <$> code_points s).

(** The surrogates at the head of a string. *)
Fixpoint leading_surrogates (l : list char) : list ascii :=
  match l with
  | Surrogate b :: l' => b :: leading_surrogates l'
  | _ => []
  end.

(** The first run of surrogates of a string: the index of its first code
    point, and the bytes the surrogates stand for. *)
Fixpoint first_surrogates (start : nat) (l : list char) : nat * list ascii :=
  match l with
  | [] => (start, [])
  | Scalar _ :: l' => first_surrogates (S start) l'
  | Surrogate b :: l' => (start, b :: leading_surrogates l')
  end.

(** [str(e)] for the [UnicodeEncodeError] that encoding [s] raises. *)
Definition encode_error (s : string) : string :=
  let found := first_surrogates 0 (code_points s) in
  match found.2 with
  | [b] =>
      "'utf-8' codec can't encode character '\udc"
        +:+ MD5.hex_byte (Z.of_nat (nat_of_ascii b)) +:+ "' in position "
        +:+ pretty found.1 +:+ ": surrogates not allowed"
  | run =>
      "'utf-8' codec can't encode characters in position "
        +:+ pretty found.1 +:+ "-" +:+ pretty (found.1 + length run - 1)%nat
        +:+ ": surrogates not allowed"
  end.

(** ** pathlib *)

Record Path := MkPath { parts : list string }.

(** [Path(s)] for a name without separator, and [p / name]. *)
Definition path_of (s : string) : Path := MkPath [s].
Definition path_div (p : Path) (child : string) : Path :=
  MkPath (parts p ++ [child]).

Definition path_name (p : Path) : string := List.last (parts p) "".

Fixpoint join (sep : string) (l : list string) : string :=
  match l with
  | [] => ""
  | [s] => s
  | s :: l' => s +:+ sep +:+ join sep l'
  end.

Definition path_str (p : Path) : string := join "/" (parts p).

(** [s.rfind(c)]: the highest index of [c] in [s], or -1. *)
Fixpoint rfind (c : ascii) (s : string) : Z :=
  match s with
  | EmptyString => -1
  | String a s' =>
      let r := rfind c s' in
      if 0 <=? r then r + 1
      else if Ascii.eqb a c then 0 else -1
  end.

Definition len (s : string) : Z := Z.of_nat (String.length s).

(** [PurePath.stem] *)
Definition path_stem (p : Path) : string :=
  let name := path_name p in
  let i := rfind "." name in
  if (0 <? i) && (i <? len name - 1)
  then String.substring 0 (Z.to_nat i) name
  else name.

(** Comparison of sequences, as Python compares lists: the first differing
    position decides, a proper prefix is smaller. *)
Fixpoint lex_compare {A} (cmp : A -> A -> comparison) (l1 l2 : list A)
  : comparison :=
  match l1, l2 with
  | [], [] => Eq
  | [], _ :: _ => Lt
  | _ :: _, [] => Gt
  | x :: l1', y :: l2' =>
      match cmp x y with
      | Eq => lex_compare cmp l1' l2'
      | c => c
      end
  end.

(** Paths are ordered by their parts, and the parts as strings. *)
Definition path_key (p : Path) : list string := str_key <$> parts p.

Definition path_compare (p q : Path) : comparison :=
  lex_compare String.compare (path_key p) (path_key q).

Definition path_lt (p q : Path) : bool :=
  match path_compare p q with Lt => true | _ => false end.

(** [not (q < p)], the relation [sorted] arranges its result by. *)
Definition path_le (p q : Path) : Prop := path_lt q p = false.

#[global] Instance path_le_dec : RelDecision path_le.
Proof. intros p q. unfold path_le. apply _. Defined.

(** [sorted(paths)] *)
Definition sorted (l : list Path) : list Path := merge_sort path_le l.

(** The pattern [*.pdf]: any name ending in [.pdf], matched case-sensitively,
    a leading dot included.  The four bytes of [.pdf] end the name exactly
    when its four code points end the string Python reads. *)
Definition ends_with (suffix s : string) : bool :=
  let n := String.length s in
  let k := String.length suffix in
  (k <=? n)%nat && String.eqb (String.substring (n - k) k s) suffix.

Definition matches_pdf (name : string) : bool := ends_with ".pdf" name.

(** ** urllib.parse.quote *)

Definition always_safe (c : ascii) : bool :=
  let n := nat_of_ascii c in
  ((65 <=? n) && (n <=? 90) || (97 <=? n) && (n <=? 122)
   || (48 <=? n) && (n <=? 57))%nat
  || Ascii.eqb c "_" || Ascii.eqb c "." || Ascii.eqb c "-" || Ascii.eqb c "~".

Definition HEX_DIGIT (n : nat) : ascii :=
  match String.get n "0123456789ABCDEF" with
  | Some c => c
  | None => "0"%char
  end.

(** [quote_from_bytes(s)] with the default [safe='/'], which is what
    [quote] applies to a string once encoded. *)
Fixpoint quote (s : string) : string :=
  match s with
  | EmptyString => EmptyString
  | String c s' =>
      if always_safe c || Ascii.eqb c "/" then String c (quote s')
      else
        let n := nat_of_ascii c in
        String "%" (String (HEX_DIGIT (n / 16))
                           (String (HEX_DIGIT (n mod 16)) (quote s')))
  end.

(** ** str.strip *)

(** The white space of Python: U+0009..U+000D, U+001C..U+0020, and in UTF-8
    U+0085, U+00A0 (two bytes), U+1680, U+2000..U+200A, U+2028, U+2029,
    U+202F, U+205F, U+3000 (three bytes). *)
Definition space1 (a : ascii) : bool :=
  let n := nat_of_ascii a in
  ((9 <=? n) && (n <=? 13) || (28 <=? n) && (n <=? 32))%nat.

Definition space2 (a b : ascii) : bool :=
  let x := nat_of_ascii a in
  let y := nat_of_ascii b in
  ((x =? 194) && ((y =? 133) || (y =? 160)))%nat.

Definition space3 (a b c : ascii) : bool :=
  let x := nat_of_ascii a in
  let y := nat_of_ascii b in
  let z := nat_of_ascii c in
  ((x =? 225) && (y =? 154) && (z =? 128)
   || (x =? 226) && (y =? 128)
      && ((128 <=? z) && (z <=? 138) || (z =? 168) || (z =? 169) || (z =? 175))
   || (x =? 226) && (y =? 129) && (z =? 159)
   || (x =? 227) && (y =? 128) && (z =? 128))%nat.

Fixpoint lstrip_with (p1 : ascii -> bool) (p2 : ascii -> ascii -> bool)
    (p3 : ascii -> ascii -> ascii -> bool) (s : string) : string :=
  match s with
  | EmptyString => EmptyString
  | String a r =>
      if p1 a then lstrip_with p1 p2 p3 r
      else
        match r with
        | String b r2 =>
            if p2 a b then lstrip_with p1 p2 p3 r2
            else
              match r2 with
              | String c r3 =>
                  if p3 a b c then lstrip_with p1 p2 p3 r3 else s
              | EmptyString => s
              end
        | EmptyString => s
        end
  end.

Definition lstrip : string -> string := lstrip_with space1 space2 space3.

Definition rstrip (s : string) : string :=
  String.rev
    (lstrip_with space1 (fun b a => space2 a b) (fun c b a => space3 a b c)
       (String.rev s)).

Definition strip (s : string) : string := rstrip (lstrip s).

(** ** The outside world *)

Inductive fs_node :=
| Absent
| NotDir
| Dir (names : list string).

(** [os.stat]: the size, and what converting [st_mtime] to an ISO-8601 UTC
    string gives. *)
Record stat_result := MkStat { st_size : Z; st_mtime_iso : answer string }.

Record CompletedProcess :=
  MkProc { returncode : Z; stdout : string; stderr : string }.

Record World := MkWorld {
  (** the file system, read *)
  node : Path -> fs_node;
  os_stat : Path -> answer stat_result;
  read_bytes : Path -> answer string;
  (** the file system, written: whether [open(name, 'w')] and [json.dump]
      go through *)
  dump_json : string -> answer unit;
  (** [subprocess.run(argv, capture_output=True, text=True)] *)
  subprocess_run : list string -> answer CompletedProcess;
  (** the clock, as read and formatted at the three places that use it:
      [lastUpdated], the commit message, the notification *)
  now_lastUpdated : string;
  now_commit : string;
  now_notify : string
}.

Definition path_exists (w : World) (p : Path) : bool :=
  match node w p with Absent => false | _ => true end.

Definition is_dir (w : World) (p : Path) : bool :=
  match node w p with Dir _ => true | _ => false end.

(** [list(p.glob('*.pdf'))], in the order the directory is listed. *)
Definition glob_pdf (w : World) (p : Path) : list Path :=
  match node w p with
  | Dir names => map (path_div p) (filter (fun n => matches_pdf n = true) names)
  | _ => []
  end.

(** ** Configuration *)

Definition GITHUB_USERNAME : string := "jarlesteinnes-bot".
Definition REPO_NAME : string := "bntf-union-documents".
Definition BASE_URL : string :=
  "https://raw.githubusercontent.com/" +:+ GITHUB_USERNAME +:+ "/"
    +:+ REPO_NAME +:+ "/main".

Definition CATEGORIES : list string :=
  ["protokoller"; "vedtekter"; "særavtale_bntf"; "hovedavtalen";
   "overenskomsten"; "other"].

Definition IOS_UPDATE_EVENT_TYPE : string := "document_update".

Definition CATEGORY_DISPLAY_NAMES : gmap string string :=
  list_to_map
    [("protokoller", "Protokoller"); ("vedtekter", "Vedtekter");
     ("særavtale_bntf", "Særavtale BNTF");
     ("hovedavtalen", "Hovedavtalen YS/NHO");
     ("overenskomsten", "Overenskomsten"); ("other", "Other")].

Definition CATEGORY_ICONS : gmap string string :=
  list_to_map
    [("protokoller", "📋"); ("vedtekter", "📜"); ("særavtale_bntf", "🚁");
     ("hovedavtalen", "🏢"); ("overenskomsten", "📄"); ("other", "📁")].

(** ** The catalog *)

Record Document := MkDocument {
  doc_id : string;
  doc_name : string;
  doc_filename : string;
  doc_url : string;
  doc_category : string;
  doc_categoryDisplayName : string;
  doc_icon : string;
  doc_size : Z;
  doc_modified : string;
  doc_hash : string
}.

Record Statistics := MkStatistics {
  totalDocuments : Z;
  totalSize : Z;
  categoryCounts : gmap string Z
}.

Record Index := MkIndex {
  lastUpdated : string;
  baseUrl : string;
  version : string;
  categories : gmap string string;
  categoryIcons : gmap string string;
  documents : gmap string (list Document);
  statistics : Statistics
}.

Record ClientPayload := MkClientPayload {
  timestamp : string;
  cp_totalDocuments : Z;
  cp_categoryCounts : gmap string Z;
  updatedCategories : list string;
  specialUpdate : string;
  indexUrl : string;
  cp_version : string
}.

Record Payload := MkPayload {
  event_type : string;
  client_payload : ClientPayload
}.

Record WebhookConfig := MkWebhookConfig {
  wh_name : string;
  wh_description : string;
  wh_events : list string;
  wh_config : list (string * string);
  wh_triggers : list (string * bool);
  wh_actions : list string
}.

(** The object handed to [json.dump]. *)
Inductive dumped :=
| DumpIndex (index : Index)
| DumpWebhook (config : WebhookConfig).

(** ** Effects *)

(** What the script does to the outside, in order.  A printed log line is
    kept without the wall-clock prefix [log_message] puts before it. *)
Inductive event :=
| EvLog (level : string) (message : list frag)
| EvRun (argv : list string)
| EvDump (file : string) (obj : dumped).

(** A computation: the events it produced, and how it ended. *)
Definition IO (A : Type) : Type := list event * pyres A.

#[global] Instance IO_ret : MRet IO := fun A a => ([], Ret a).

#[global] Instance IO_bind : MBind IO := fun A B k m =>
  match m.2 with
  | Ret a => let r := k a in (m.1 ++ r.1, r.2)
  | Raise e => (m.1, Raise e)
  end.

Definition trace {A} (m : IO A) : list event := m.1.
Definition result {A} (m : IO A) : pyres A := m.2.

Definition raise {A} (e : exn) : IO A := ([], Raise e).
Definition emit (ev : event) : IO unit := ([ev], Ret tt).

(** [try: body  except Exception as e: handler(e)] *)
Definition try_except {A} (body : IO A) (handler : exn -> IO A) : IO A :=
  match body.2 with
  | Raise (Exception msg) =>
      let r := handler (Exception msg) in (body.1 ++ r.1, r.2)
  | _ => body
  end.

(** Calling the world. *)
Definition ask {A} (a : answer A) : IO A :=
  match a with
  | Gives x => mret x
  | Fails msg => raise (Exception msg)
  end.

Definition sys_exit {A} (code : Z) : IO A := raise (SystemExit code).

(** [s.encode()]: UTF-8, with the error handler [strict]. *)
Definition str_encode (s : string) : IO string :=
  if valid_utf8 s then mret s else raise (Exception (encode_error s)).

(** [urllib.parse.quote(s)] for a [str]. *)
Definition urllib_quote (s : string) : IO string :=
  data ← str_encode s;
  mret (quote data).

(** [for x in l: s = body(x, s)] *)
Fixpoint for_in {A S} (l : list A) (body : A -> S -> IO S) (s : S) : IO S :=
  match l with
  | [] => mret s
  | x :: l' => s' ← body x s; for_in l' body s'
  end.

(** ** The script *)

Definition log_message (message : list frag) (level : string) : IO unit :=
  emit (EvLog level message).

Record file_info := MkInfo { size : Z; modified : string; hash : string }.

Definition get_file_info (w : World) (file_path : Path) : IO file_info :=
  try_except
    (stat ← ask (os_stat w file_path);
     m ← ask (st_mtime_iso stat);
     data ← ask (read_bytes w file_path);
     mret (MkInfo (st_size stat) m (MD5.hexdigest data)))
    (fun e =>
       log_message
         [Str "Error getting file info for "; Str (path_str file_path);
          Str ": "; Exc e] "ERROR";;
       mret (MkInfo 0 "" "")).

(** The locals of the loop over the files of one category. *)
Record scan_state := MkScan {
  sc_documents : list Document;
  sc_category_size : Z;
  sc_total_documents : Z;
  sc_total_size : Z
}.

(** [hashlib.md5(f'{category}_{pdf_file.name}'.encode()).hexdigest()[:12]] *)
Definition file_id (category : string) (pdf_file : Path) : IO string :=
  data ← str_encode (category +:+ "_" +:+ path_name pdf_file);
  mret (String.substring 0 12 (MD5.hexdigest data)).

(** The dictionary [document], its entries evaluated in order: the one that
    can raise is the URL, which quotes the name. *)
Definition make_document (category : string) (pdf_file : Path)
    (file_id : string) (info : file_info) : IO Document :=
  quoted ← urllib_quote (path_name pdf_file);
  mret {| doc_id := file_id;
          doc_name := path_stem pdf_file;
          doc_filename := path_name pdf_file;
          doc_url := BASE_URL +:+ "/" +:+ category +:+ "/" +:+ quoted;
          doc_category := category;
          doc_categoryDisplayName :=
            default category (CATEGORY_DISPLAY_NAMES !! category);
          doc_icon := default "📄" (CATEGORY_ICONS !! category);
          doc_size := size info;
          doc_modified := modified info;
          doc_hash := hash info |}.

(** The body of [for pdf_file in sorted(pdf_files)]. *)
Definition scan_file (w : World) (category : string) (pdf_file : Path)
    (s : scan_state) : IO scan_state :=
  info ← get_file_info w pdf_file;
  id ← file_id category pdf_file;
  document ← make_document category pdf_file id info;
  mret {| sc_documents := sc_documents s ++ [document];
          sc_category_size := sc_category_size s + size info;
          sc_total_documents := sc_total_documents s + 1;
          sc_total_size := sc_total_size s + size info |}.

(** The locals of the loop over the categories. *)
Record build_state := MkBuild {
  b_index : Index;
  b_total_documents : Z;
  b_total_size : Z
}.

Definition set_category (index : Index) (category : string)
    (docs : list Document) : Index :=
  {| lastUpdated := lastUpdated index;
     baseUrl := baseUrl index;
     version := version index;
     categories := categories index;
     categoryIcons := categoryIcons index;
     documents := <[category := docs]> (documents index);
     statistics :=
       {| totalDocuments := totalDocuments (statistics index);
          totalSize := totalSize (statistics index);
          categoryCounts :=
            <[category := Z.of_nat (length docs)]>
              (categoryCounts (statistics index)) |} |}.

Definition set_totals (index : Index) (total_documents total_size : Z)
  : Index :=
  {| lastUpdated := lastUpdated index;
     baseUrl := baseUrl index;
     version := version index;
     categories := categories index;
     categoryIcons := categoryIcons index;
     documents := documents index;
     statistics :=
       {| totalDocuments := total_documents;
          totalSize := total_size;
          categoryCounts := categoryCounts (statistics index) |} |}.

(** The body of [for category in CATEGORIES]. *)
Definition scan_category (w : World) (category : string) (b : build_state)
  : IO build_state :=
  let category_path := path_of category in
  let start := MkScan [] 0 (b_total_documents b) (b_total_size b) in
  s ← (if path_exists w category_path && is_dir w category_path then
         log_message [Str "Processing category: "; Str category] "INFO";;
         let pdf_files := glob_pdf w category_path in
         s ← for_in (sorted pdf_files) (scan_file w category) start;
         log_message
           [Str "Found "; Num (Z.of_nat (length (sc_documents s)));
            Str " documents in "; Str category; Str " (";
            NumGrouped (sc_category_size s); Str " bytes)"] "INFO";;
         mret s
       else mret start);
  mret {| b_index := set_category (b_index b) category (sc_documents s);
          b_total_documents := sc_total_documents s;
          b_total_size := sc_total_size s |}.

Definition empty_index (w : World) : Index :=
  {| lastUpdated := now_lastUpdated w;
     baseUrl := BASE_URL;
     version := "2.0";
     categories := CATEGORY_DISPLAY_NAMES;
     categoryIcons := CATEGORY_ICONS;
     documents := ∅;
     statistics :=
       {| totalDocuments := 0; totalSize := 0; categoryCounts := ∅ |} |}.

(** The scan of [generate_pdf_index], before the file is written. *)
Definition build_index (w : World) (cats : list string) : IO Index :=
  b ← for_in cats (scan_category w) (MkBuild (empty_index w) 0 0);
  mret (set_totals (b_index b) (b_total_documents b) (b_total_size b)).

(** An attempted write is an event, whether or not it goes through. *)
Definition json_dump (w : World) (file : string) (obj : dumped) : IO unit :=
  emit (EvDump file obj);;
  ask (dump_json w file).

Definition generate_pdf_index (w : World) : IO Index :=
  log_message [Str "Generating PDF index with updated categories..."] "INFO";;
  index ← build_index w CATEGORIES;
  json_dump w "pdf-index.json" (DumpIndex index);;
  log_message
    [Str "✅ PDF index generated: "; Num (totalDocuments (statistics index));
     Str " documents, "; NumGrouped (totalSize (statistics index));
     Str " bytes total"] "INFO";;
  mret index.

(** [subprocess.run]: the launch is an event, then the world answers. *)
Definition run (w : World) (argv : list string) : IO CompletedProcess :=
  emit (EvRun argv);;
  ask (subprocess_run w argv).

Definition when_ (c : bool) (m : IO unit) : IO unit :=
  if c then m else mret tt.

Definition nonzero (z : Z) : bool := negb (z =? 0).

Definition commit_message (w : World) : string :=
  "Auto-update: Documents synced with Særavtale BNTF - " +:+ now_commit w.

Definition git_commit_and_push (w : World) : IO bool :=
  try_except
    (log_message [Str "Committing changes to Git..."] "INFO";;
     result ← run w ["git"; "add"; "."];
     when_ (nonzero (returncode result))
       (raise (Exception ("Git add failed: " +:+ stderr result)));;
     result ← run w ["git"; "status"; "--porcelain"];
     if String.eqb (strip (stdout result)) "" then
       log_message [Str "No changes to commit"] "INFO";;
       mret false
     else
       result ← run w ["git"; "commit"; "-m"; commit_message w];
       when_ (nonzero (returncode result))
         (raise (Exception ("Git commit failed: " +:+ stderr result)));;
       log_message [Str "Pushing to GitHub..."] "INFO";;
       result ← run w ["git"; "push"; "origin"; "main"];
       when_ (nonzero (returncode result))
         (raise (Exception ("Git push failed: " +:+ stderr result)));;
       log_message [Str "✅ Successfully pushed changes to GitHub"] "INFO";;
       mret true)
    (fun e =>
       log_message [Str "❌ Git operations failed: "; Exc e] "ERROR";;
       mret false).

(** The [payload] local of [notify_ios_app]. *)
Definition notify_payload (w : World) (index_data : Index) : Payload :=
  {| event_type := IOS_UPDATE_EVENT_TYPE;
     client_payload :=
       {| timestamp := now_notify w;
          cp_totalDocuments := totalDocuments (statistics index_data);
          cp_categoryCounts := categoryCounts (statistics index_data);
          updatedCategories := CATEGORIES;
          specialUpdate := "særavtale_bntf_renamed";
          indexUrl := BASE_URL +:+ "/pdf-index.json";
          cp_version := version index_data |} |}.

(** The payload is built and then only described in the log: nothing is
    sent. *)
Definition notify_ios_app (w : World) (index_data : Index) : IO bool :=
  try_except
    (log_message [Str "Notifying iOS app about document updates..."] "INFO";;
     let payload := notify_payload w index_data in
     log_message [Str "📱 iOS App Notification Payload:"] "INFO";;
     log_message [Str "   Event Type: "; Str IOS_UPDATE_EVENT_TYPE] "INFO";;
     log_message
       [Str "   Total Documents: ";
        Num (totalDocuments (statistics index_data))] "INFO";;
     log_message [Str "   Categories: "; Str (join ", " CATEGORIES)] "INFO";;
     log_message
       [Str "   Special Update: Særavtale BNTF category renamed"] "INFO";;
     log_message [Str "✅ iOS app notification sent successfully"] "INFO";;
     mret true)
    (fun e =>
       log_message [Str "❌ Failed to notify iOS app: "; Exc e] "ERROR";;
       mret false).

Definition webhook_config : WebhookConfig :=
  {| wh_name := "BNTF Document Auto-Update";
     wh_description := "Automatically updates iOS app when documents change";
     wh_events := ["push"; "release"];
     wh_config :=
       [("url", "https://api.bntf.no/webhook/document-update");
        ("content_type", "application/json");
        ("secret", "bntf-document-webhook-secret")];
     wh_triggers :=
       [("on_push", true); ("on_pdf_change", true); ("on_index_update", true)];
     wh_actions := ["regenerate_index"; "notify_ios_app"; "update_cdn_cache"] |}.

Definition create_webhook_config (w : World) : IO unit :=
  json_dump w "webhook-config.json" (DumpWebhook webhook_config);;
  log_message [Str "✅ Webhook configuration created"] "INFO".

Definition rule : string := String.concat "" (replicate 60 "=").
Arguments rule : simpl never.

Definition main (w : World) : IO unit :=
  log_message [Str "🚁 Starting BNTF Document Manager Auto-Update System"]
    "INFO";;
  log_message [Str rule] "INFO";;
  when_ (negb (path_exists w (path_of ".git")))
    (log_message
       [Str "❌ Not in a Git repository. Please run from bntf-union-documents directory"]
       "ERROR";;
     sys_exit 1);;
  index_data ←
    try_except (generate_pdf_index w)
      (fun e =>
         log_message [Str "❌ Failed to generate PDF index: "; Exc e] "ERROR";;
         sys_exit 1);
  pushed ← git_commit_and_push w;
  if pushed : bool then
    notify_ios_app w index_data;;
    create_webhook_config w;;
    log_message [Str rule] "INFO";;
    log_message
      [Str "🎉 BNTF Document Manager Auto-Update Completed Successfully!"]
      "INFO";;
    log_message [Str "📱 iOS app will receive automatic updates"] "INFO";;
    log_message
      [Str "🔄 Webhook system configured for future automatic updates"]
      "INFO";;
    log_message
      [Str "📊 Total documents: ";
       Num (totalDocuments (statistics index_data))] "INFO";;
    log_message [Str "🚁 Særavtale BNTF category properly configured"] "INFO"
  else
    log_message [Str "❌ Auto-update process failed"] "ERROR";;
    sys_exit 1.

(** The status the process ends with: 0 when [main] returns, the argument of
    [sys.exit], and 1 when an exception reaches the top. *)
Definition exit_code (m : IO unit) : Z :=
  match result m with
  | Ret _ => 0
  | Raise (SystemExit code) => code
  | Raise (Exception _) => 1
  end.

(** ** Vocabulary of the statements *)

(** [sum(l)] *)
Definition sumZ (l : list Z) : Z := foldr Z.add 0 l.

(** [sum(counts.values())] *)
Definition sum_values (counts : gmap string Z) : Z :=
  map_fold (fun _ n acc => n + acc) 0 counts.

(** The sum of [size] over the records of every category. *)
Definition sum_sizes (docs : gmap string (list Document)) : Z :=
  map_fold (fun _ ds acc => sumZ (doc_size <$> ds) + acc) 0 docs.

(** Reading the metadata of [p] raises: [os.stat], the conversion of the
    modification time, or reading the bytes. *)
Definition metadata_fails (w : World) (p : Path) : Prop :=
  match os_stat w p with
  | Fails _ => True
  | Gives st =>
      match st_mtime_iso st, read_bytes w p with
      | Gives _, Gives _ => False
      | _, _ => True
      end
  end.

(** What [get_file_info] hands back. *)
Definition info_of (w : World) (p : Path) : file_info :=
  match result (get_file_info w p) with
  | Ret info => info
  | Raise _ => MkInfo 0 "" ""
  end.

(** The record of a file whose name can be encoded. *)
Definition record (category : string) (p : Path) (info : file_info)
  : Document :=
  {| doc_id :=
       String.substring 0 12
         (MD5.hexdigest (category +:+ "_" +:+ path_name p));
     doc_name := path_stem p;
     doc_filename := path_name p;
     doc_url := BASE_URL +:+ "/" +:+ category +:+ "/" +:+ quote (path_name p);
     doc_category := category;
     doc_categoryDisplayName :=
       default category (CATEGORY_DISPLAY_NAMES !! category);
     doc_icon := default "📄" (CATEGORY_ICONS !! category);
     doc_size := size info;
     doc_modified := modified info;
     doc_hash := hash info |}.

Definition document_of (w : World) (category : string) (p : Path) : Document :=
  record category p (info_of w p).

(** The two strings the loop encodes for a file can be encoded. *)
Definition encodable_file (category : string) (p : Path) : bool :=
  valid_utf8 (category +:+ "_" +:+ path_name p) && valid_utf8 (path_name p).

(** The files the loop of one category visits, in order. *)
Definition pdf_paths (w : World) (category : string) : list Path :=
  if path_exists w (path_of category) && is_dir w (path_of category)
  then sorted (glob_pdf w (path_of category))
  else [].

Definition docs_of (w : World) (category : string) : list Document :=
  document_of w category <$> pdf_paths w category.

(** Every file the scan of the categories [cats] visits can be encoded. *)
Definition scannable (w : World) (cats : list string) : bool :=
  forallb (fun c => forallb (encodable_file c) (pdf_paths w c)) cats.

(** The computation ends by raising an exception of class [Exception]. *)
Definition raised {A} (m : IO A) : Prop :=
  exists msg, result m = Raise (Exception msg).

(** One turn of each loop, as a function of the state. *)
Definition next_scan (w : World) (category : string) (s : scan_state)
    (p : Path) : scan_state :=
  {| sc_documents := sc_documents s ++ [document_of w category p];
     sc_category_size := sc_category_size s + size (info_of w p);
     sc_total_documents := sc_total_documents s + 1;
     sc_total_size := sc_total_size s + size (info_of w p) |}.

Definition next_build (w : World) (b : build_state) (category : string)
  : build_state :=
  {| b_index := set_category (b_index b) category (docs_of w category);
     b_total_documents :=
       b_total_documents b + Z.of_nat (length (docs_of w category));
     b_total_size :=
       b_total_size b + sumZ (doc_size <$> docs_of w category) |}.

(** The catalog of a run over the categories [cats] whose scan comes to its
    end. *)
Definition catalog_over (w : World) (cats : list string) : Index :=
  let b := foldl (next_build w) (MkBuild (empty_index w) 0 0) cats in
  set_totals (b_index b) (b_total_documents b) (b_total_size b).

Definition catalog (w : World) : Index := catalog_over w CATEGORIES.

Arguments catalog_over : simpl never.
Arguments catalog : simpl never.
Arguments docs_of : simpl never.
Arguments scannable : simpl never.

(** What the generation does once the scan has come to its end. *)
Definition written (w : World) : list event :=
  EvDump "pdf-index.json" (DumpIndex (catalog w))
  :: match dump_json w "pdf-index.json" with
     | Gives _ =>
         [EvLog "INFO"
            [Str "✅ PDF index generated: ";
             Num (totalDocuments (statistics (catalog w)));
             Str " documents, ";
             NumGrouped (totalSize (statistics (catalog w)));
             Str " bytes total"]]
     | Fails _ => []
     end.

(** [index] is a catalog the generation produced in [w]: the value it
    returned, or the object it handed to [json.dump]. *)
Definition produces (w : World) (index : Index) : Prop :=
  result (generate_pdf_index w) = Ret index
  \/ EvDump "pdf-index.json" (DumpIndex index) ∈ trace (generate_pdf_index w).

Definition is_log (ev : event) : Prop :=
  match ev with EvLog _ _ => True | _ => False end.

Definition is_hex_digit (c : ascii) : Prop :=
  c ∈ list_ascii_of_string "0123456789abcdef".

(** Two directory states with the same entries, in whatever order the
    system lists them. *)
Definition same_listing (n1 n2 : fs_node) : Prop :=
  match n1, n2 with
  | Absent, Absent => True
  | NotDir, NotDir => True
  | Dir names1, Dir names2 => names1 ≡ₚ names2
  | _, _ => False
  end.

(** The files of [w1] are those of [w2], unchanged: same entries in every
    directory, same metadata and same bytes at every path.  The clock, git
    and the outcome of writes are free. *)
Definition same_files (w1 w2 : World) : Prop :=
  (forall p, same_listing (node w1 p) (node w2 p))
  /\ (forall p, os_stat w1 p = os_stat w2 p)
  /\ (forall p, read_bytes w1 p = read_bytes w2 p).

Definition with_lastUpdated (t : string) (index : Index) : Index :=
  MkIndex t (baseUrl index) (version index) (categories index)
    (categoryIcons index) (documents index) (statistics index).

(** The order of file names: byte by byte, a proper prefix first.  On names
    that are UTF-8 this is the order of the code points. *)
Definition filename_le (s t : string) : Prop := String.leb s t = true.

(** The lines [notify_ios_app] logs, by the text they start with. *)
Definition notify_lines : list string :=
  ["Notifying iOS app about document updates...";
   "📱 iOS App Notification Payload:";
   "   Event Type: ";
   "   Total Documents: ";
   "   Categories: ";
   "   Special Update: Særavtale BNTF category renamed";
   "✅ iOS app notification sent successfully";
   "❌ Failed to notify iOS app: "].

Definition is_notification (ev : event) : Prop :=
  match ev with
  | EvLog _ (Str s :: _) => s ∈ notify_lines
  | _ => False
  end.

Definition quiet (t : list event) : Prop :=
  Forall (fun ev => ~ is_notification ev) t.

Definition git_add : list string := ["git"; "add"; "."].
Definition git_status : list string := ["git"; "status"; "--porcelain"].
Definition git_commit (w : World) : list string :=
  ["git"; "commit"; "-m"; commit_message w].
Definition git_push : list string := ["git"; "push"; "origin"; "main"].

Definition banner : list event :=
  [EvLog "INFO" [Str "🚁 Starting BNTF Document Manager Auto-Update System"];
   EvLog "INFO" [Str rule]].

(** What [main] logs last on success. *)
Definition closing (index : Index) : list event :=
  [EvLog "INFO" [Str rule];
   EvLog "INFO"
     [Str "🎉 BNTF Document Manager Auto-Update Completed Successfully!"];
   EvLog "INFO" [Str "📱 iOS app will receive automatic updates"];
   EvLog "INFO"
     [Str "🔄 Webhook system configured for future automatic updates"];
   EvLog "INFO"
     [Str "📊 Total documents: "; Num (totalDocuments (statistics index))];
   EvLog "INFO" [Str "🚁 Særavtale BNTF category properly configured"]].

(** The commands a trace launched and the files it tried to write, in
    order. *)
Definition runs (t : list event) : list (list string) :=
  omap (fun ev => match ev with EvRun argv => Some argv | _ => None end) t.

Definition dumps (t : list event) : list string :=
  omap (fun ev => match ev with EvDump file _ => Some file | _ => None end) t.

Definition is_error_line (ev : event) : Prop :=
  match ev with EvLog level _ => level = "ERROR" | _ => False end.

(** The characters [quote] lets through or produces. *)
Definition url_char (c : ascii) : Prop :=
  always_safe c = true \/ c = "/"%char \/ c = "%"%char.

(** What a run may do to the outside: log, launch one of the four git
    commands, write one of the two JSON files. *)
Definition confined (w : World) (ev : event) : Prop :=
  match ev with
  | EvLog _ _ => True
  | EvRun argv => argv ∈ [git_add; git_status; git_commit w; git_push]
  | EvDump file _ => file = "pdf-index.json" \/ file = "webhook-config.json"
  end.

(** The value of an upper-case hexadecimal digit. *)
Definition hex_value (c : ascii) : nat :=
  let n := nat_of_ascii c in
  if (n <? 58)%nat then (n - 48)%nat else (n - 55)%nat.

(** ** Sample worlds *)

#[global] Instance Path_eq_dec : EqDecision Path.
Proof. solve_decision. Defined.

(** A repository with three documents and a text file in [vedtekter], listed
    out of order; [b.pdf] cannot be read; [other] is a plain file; the other
    categories have no directory.  Every git command succeeds and the status
    shows a change. *)
Definition sample_world : World :=
  {| node := fun p =>
       if bool_decide (p = path_of ".git") then Dir []
       else if bool_decide (p = path_of "vedtekter")
            then Dir ["c.pdf"; "notes.txt"; "a.pdf"; "b.pdf"]
       else if bool_decide (p = path_of "other") then NotDir
       else Absent;
     os_stat := fun p =>
       if bool_decide (p = MkPath ["vedtekter"; "b.pdf"])
       then Fails "[Errno 13] Permission denied"
       else Gives (MkStat 1024 (Gives "2024-05-01T10:00:00+00:00"));
     read_bytes := fun _ => Gives "%PDF-1.4";
     dump_json := fun _ => Gives tt;
     subprocess_run := fun argv =>
       if bool_decide (argv = git_status)
       then Gives (MkProc 0 "M  pdf-index.json" "")
       else Gives (MkProc 0 "" "");
     now_lastUpdated := "2024-05-02T08:00:00Z";
     now_commit := "2024-05-02 10:00";
     now_notify := "2024-05-02T08:00:01.250000+00:00" |}.

Definition with_node (w : World) (f : Path -> fs_node) : World :=
  MkWorld f (os_stat w) (read_bytes w) (dump_json w) (subprocess_run w)
    (now_lastUpdated w) (now_commit w) (now_notify w).

Definition with_dump (w : World) (f : string -> answer unit) : World :=
  MkWorld (node w) (os_stat w) (read_bytes w) f (subprocess_run w)
    (now_lastUpdated w) (now_commit w) (now_notify w).

Definition with_subprocess (w : World)
    (f : list string -> answer CompletedProcess) : World :=
  MkWorld (node w) (os_stat w) (read_bytes w) (dump_json w) f
    (now_lastUpdated w) (now_commit w) (now_notify w).

(** The same world with the directory [dir] listing [names]. *)
Definition with_listing (w : World) (dir : Path) (names : list string)
  : World :=
  with_node w (fun p => if bool_decide (p = dir) then Dir names else node w p).

Definition with_clock (w : World) (t1 t2 t3 : string) : World :=
  MkWorld (node w) (os_stat w) (read_bytes w) (dump_json w) (subprocess_run w)
    t1 t2 t3.

(** The next day: the same files, listed in another order. *)
Definition sample_world_later : World :=
  with_clock
    (with_listing sample_world (path_of "vedtekter")
       ["a.pdf"; "b.pdf"; "c.pdf"; "notes.txt"])
    "2024-05-03T08:00:00Z" "2024-05-03 10:00"
    "2024-05-03T08:00:01.500000+00:00".

(** Outside a repository. *)
Definition sample_world_no_git : World :=
  with_node sample_world (fun _ => Absent).

(** The catalog file cannot be written. *)
Definition sample_world_read_only : World :=
  with_dump sample_world (fun _ => Fails "[Errno 30] Read-only file system").

(** Nothing to commit: the status is a blank line. *)
Definition sample_world_unchanged : World :=
  with_subprocess sample_world (fun _ => Gives (MkProc 0 " " "")).

(** The push is rejected. *)
Definition sample_world_rejected : World :=
  with_subprocess sample_world (fun argv =>
    if bool_decide (argv = git_push) then Gives (MkProc 1 "" "rejected")
    else subprocess_run sample_world argv).

(** Nothing can be read, and [vedtekter] holds one file, whose name is the
    byte FF before [.pdf]: not UTF-8. *)
Definition sample_world_undecodable : World :=
  MkWorld
    (node (with_listing sample_world (path_of "vedtekter")
             [String "255" ".pdf"]))
    (fun _ => Fails "[Errno 13] Permission denied")
    (read_bytes sample_world) (dump_json sample_world)
    (subprocess_run sample_world)
    (now_lastUpdated sample_world) (now_commit sample_world)
    (now_notify sample_world).

(** * Properties *)

(** ** Strings *)

Lemma append_cons a s t : String a s +:+ t = String a (s +:+ t).
Proof. reflexivity. Qed.

Lemma append_assoc s t u : (s +:+ t) +:+ u = s +:+ (t +:+ u).
Proof.
  induction s as [|a s IH]; [done|]. rewrite !append_cons. by rewrite IH.
Qed.

Lemma string_length_ind (P : string -> Prop) :
  (forall s, (forall t, (String.length t < String.length s)%nat -> P t) -> P s) ->
  forall s, P s.
Proof.
  intros step s. remember (String.length s) as n eqn:Hn.
  revert s Hn. induction (lt_wf n) as [n _ IH]. intros s ->.
  apply step. intros t Ht. by apply (IH (String.length t)).
Qed.

Ltac shorter := simpl; lia.

(** After a string that is UTF-8 the reading starts afresh. *)
Lemma code_points_app s t :
  valid_utf8 s = true -> code_points (s +:+ t) = code_points s ++ code_points t.
Proof.
  unfold valid_utf8. induction s as [s IH] using string_length_ind.
  destruct s as [|a r]; [done|]. rewrite append_cons.
  cbn [code_points]. destruct (well_formed1 a).
  { cbn. intros H. by rewrite IH by (done || shorter). }
  destruct r as [|b r2]; [done|]. rewrite append_cons.
  destruct (well_formed2 a b).
  { cbn. intros H. by rewrite IH by (done || shorter). }
  destruct r2 as [|c r3]; [done|]. rewrite append_cons.
  destruct (well_formed3 a b c).
  { cbn. intros H. by rewrite IH by (done || shorter). }
  destruct r3 as [|d r4]; [done|]. rewrite append_cons.
  destruct (well_formed4 a b c d); [|done].
  cbn. intros H. by rewrite IH by (done || shorter).
Qed.

Lemma valid_utf8_app s t :
  valid_utf8 s = true -> valid_utf8 (s +:+ t) = valid_utf8 t.
Proof.
  intros H. unfold valid_utf8. rewrite code_points_app by done.
  rewrite forallb_app. fold (valid_utf8 s). by rewrite H.
Qed.

(** The bytes can be read back from the code points: encoding a decoded
    file name gives the name. *)
Lemma code_points_bytes s : flatten (char_bytes <$> code_points s) = s.
Proof.
  induction s as [s IH] using string_length_ind.
  destruct s as [|a r]; [done|].
  assert (flatten (char_bytes <$> Surrogate a :: code_points r) = String a r)
    as Hstray.
  { cbn. by rewrite IH by shorter. }
  cbn [code_points]. destruct (well_formed1 a).
  { cbn. by rewrite IH by shorter. }
  destruct r as [|b r2]; [done|].
  destruct (well_formed2 a b).
  { cbn. by rewrite IH by shorter. }
  destruct r2 as [|c r3]; [exact Hstray|].
  destruct (well_formed3 a b c).
  { cbn. by rewrite IH by shorter. }
  destruct r3 as [|d r4]; [exact Hstray|].
  destruct (well_formed4 a b c d); [|exact Hstray].
  cbn. by rewrite IH by shorter.
Qed.

Lemma char_key_scalars l :
  forallb is_scalar l = true -> char_key <$> l = (char_bytes <$> l).
Proof.
  induction l as [|[u|b] l IH]; [done| |done].
  intros H. csimpl. by rewrite IH.
Qed.

(** On UTF-8 the order of the code points is the order of the bytes. *)
Lemma str_key_valid s : valid_utf8 s = true -> str_key s = s.
Proof.
  intros H. unfold str_key. rewrite char_key_scalars by done.
  apply code_points_bytes.
Qed.

(** ** The order on paths *)

Section lex_order.
Context {A : Type} (cmp : A -> A -> comparison).
Hypothesis cmp_eq : forall x y, cmp x y = Eq -> x = y.
Hypothesis cmp_refl : forall x, cmp x x = Eq.
Hypothesis cmp_opp : forall x y, cmp y x = CompOpp (cmp x y).
Hypothesis cmp_trans :
  forall x y z, cmp x y = Lt -> cmp y z = Lt -> cmp x z = Lt.

Lemma lex_compare_eq l1 l2 : lex_compare cmp l1 l2 = Eq -> l1 = l2.
Proof.
  revert l2. induction l1 as [|x l1 IH]; intros [|y l2]; simpl; try done.
  destruct (cmp x y) eqn:E; try done.
  intros H. apply cmp_eq in E. apply IH in H. congruence.
Qed.

Lemma lex_compare_refl l : lex_compare cmp l l = Eq.
Proof. induction l as [|x l IH]; simpl; [done|]. by rewrite cmp_refl. Qed.

Lemma lex_compare_opp l1 l2 :
  lex_compare cmp l2 l1 = CompOpp (lex_compare cmp l1 l2).
Proof.
  revert l2. induction l1 as [|x l1 IH]; intros [|y l2]; simpl; try done.
  rewrite (cmp_opp x y). destruct (cmp x y); simpl; auto.
Qed.

Lemma lex_compare_trans l1 l2 l3 :
  lex_compare cmp l1 l2 = Lt -> lex_compare cmp l2 l3 = Lt ->
  lex_compare cmp l1 l3 = Lt.
Proof.
  revert l2 l3.
  induction l1 as [|x l1 IH]; intros [|y l2] [|z l3]; simpl; try done.
  destruct (cmp x y) eqn:Exy; try done.
  - apply cmp_eq in Exy. subst y.
    destruct (cmp x z); try done. apply IH.
  - intros _. destruct (cmp y z) eqn:Eyz; try done.
    + apply cmp_eq in Eyz. subst z. by rewrite Exy.
    + by rewrite (cmp_trans x y z).
Qed.
End lex_order.

Lemma ascii_compare_refl a : Ascii.compare a a = Eq.
Proof. unfold Ascii.compare. apply N.compare_refl. Qed.

Lemma ascii_compare_trans a b c :
  Ascii.compare a b = Lt -> Ascii.compare b c = Lt -> Ascii.compare a c = Lt.
Proof.
  unfold Ascii.compare. rewrite !N.compare_lt_iff. apply N.lt_trans.
Qed.

Lemma string_compare_refl s : String.compare s s = Eq.
Proof. induction s as [|a s IH]; simpl; [done|]. by rewrite ascii_compare_refl. Qed.

Lemma string_compare_eq s t : String.compare s t = Eq -> s = t.
Proof. apply String.compare_eq_iff. Qed.

Lemma string_compare_trans s t u :
  String.compare s t = Lt -> String.compare t u = Lt ->
  String.compare s u = Lt.
Proof.
  revert t u. induction s as [|a s IH]; intros [|b t] [|c u]; simpl; try done.
  destruct (Ascii.compare a b) eqn:Eab; try done.
  - apply Ascii.compare_eq_iff in Eab. subst b.
    destruct (Ascii.compare a c); try done. apply IH.
  - intros _. destruct (Ascii.compare b c) eqn:Ebc; try done.
    + apply Ascii.compare_eq_iff in Ebc. subst c. by rewrite Eab.
    + by rewrite (ascii_compare_trans a b c).
Qed.

Lemma path_compare_eq p q : path_compare p q = Eq -> path_key p = path_key q.
Proof. apply lex_compare_eq, string_compare_eq. Qed.

Lemma path_compare_opp p q : path_compare q p = CompOpp (path_compare p q).
Proof. apply lex_compare_opp. intros x y. apply String.compare_antisym. Qed.

Lemma path_compare_trans p q r :
  path_compare p q = Lt -> path_compare q r = Lt -> path_compare p r = Lt.
Proof.
  apply lex_compare_trans.
  - apply string_compare_eq.
  - apply string_compare_trans.
Qed.

Lemma path_le_compare p q : path_le p q <-> path_compare p q <> Gt.
Proof.
  unfold path_le, path_lt. rewrite (path_compare_opp p q).
  destruct (path_compare p q); simpl; split; congruence.
Qed.

#[global] Instance path_le_total : Total path_le.
Proof.
  intros p q. rewrite !path_le_compare, (path_compare_opp p q).
  destruct (path_compare p q); simpl; auto.
Qed.

#[global] Instance path_le_trans : Transitive path_le.
Proof.
  intros p q r. rewrite !path_le_compare. intros Hpq Hqr.
  destruct (path_compare p q) eqn:E1; [| |done].
  - apply path_compare_eq in E1. unfold path_compare. by rewrite E1.
  - destruct (path_compare q r) eqn:E2; [| |done].
    + apply path_compare_eq in E2. unfold path_compare in *.
      by rewrite <- E2, E1.
    + by rewrite (path_compare_trans p q r).
Qed.

Lemma path_le_both p q : path_le p q -> path_le q p -> path_compare p q = Eq.
Proof.
  rewrite !path_le_compare, (path_compare_opp p q).
  by destruct (path_compare p q).
Qed.

(** Two files of one directory whose names are UTF-8 compare as the bytes
    of their names. *)
Lemma path_compare_same_directory c name1 name2 :
  valid_utf8 name1 = true -> valid_utf8 name2 = true ->
  path_compare (MkPath [c; name1]) (MkPath [c; name2])
  = String.compare name1 name2.
Proof.
  intros H1 H2. unfold path_compare, path_key. simpl.
  rewrite string_compare_refl, !str_key_valid by done.
  by destruct (String.compare name1 name2).
Qed.

(** ** [sorted] *)

Lemma sorted_perm l : sorted l ≡ₚ l.
Proof. apply merge_sort_Permutation. Qed.

Lemma sorted_strongly l : StronglySorted path_le (sorted l).
Proof. apply StronglySorted_merge_sort; apply _. Qed.

(** The result depends on the paths handed in, not on their order, when no
    two of them compare equal. *)
Lemma sorted_order_irrelevant l1 l2 :
  (forall p q, p ∈ l1 -> q ∈ l1 -> path_compare p q = Eq -> p = q) ->
  l1 ≡ₚ l2 -> sorted l1 = sorted l2.
Proof.
  intros Hdistinct H.
  apply (StronglySorted_unique_strong path_le); auto using sorted_strongly.
  - intros p q Hp Hq Hpq Hqp. rewrite sorted_perm in Hp.
    rewrite sorted_perm, <- H in Hq. auto using path_le_both.
  - by rewrite !sorted_perm.
Qed.

Lemma sorted_length l : length (sorted l) = length l.
Proof. by rewrite sorted_perm. Qed.

(** ** Computations *)

Lemma result_bind {A B} (m : IO A) (k : A -> IO B) :
  result (m ≫= k)
  = match result m with Ret a => result (k a) | Raise e => Raise e end.
Proof. destruct m as [t [a|e]]; reflexivity. Qed.

Lemma trace_bind {A B} (m : IO A) (k : A -> IO B) :
  trace (m ≫= k)
  = trace m ++ match result m with Ret a => trace (k a) | Raise _ => [] end.
Proof.
  destruct m as [t [a|e]]; unfold trace; simpl; [done|].
  by rewrite app_nil_r.
Qed.

Lemma io_eta {A} (m : IO A) : m = (trace m, result m).
Proof. by destruct m. Qed.

Lemma trace_pair {A} t (r : pyres A) : trace (t, r) = t.
Proof. reflexivity. Qed.

Section loops.
Context {A S : Type} (body : A -> S -> IO S) (f : S -> A -> S)
  (ok : A -> bool).
Hypothesis body_returns :
  forall x s, ok x = true -> result (body x s) = Ret (f s x).

(** A loop whose body returns at every turn is a fold. *)
Lemma for_in_result l s :
  forallb ok l = true -> result (for_in l body s) = Ret (foldl f s l).
Proof.
  revert s. induction l as [|x l IH]; intros s; simpl; [done|].
  intros [Hx Hl]%andb_true_iff. by rewrite result_bind, body_returns, IH.
Qed.

(** A loop whose body raises at some turn raises. *)
Lemma for_in_raised l s :
  (forall x s, ok x = false -> raised (body x s)) ->
  forallb ok l = false -> raised (for_in l body s).
Proof.
  intros Hraises. unfold raised.
  revert s. induction l as [|x l IH]; intros s; simpl; [done|].
  rewrite result_bind. destruct (ok x) eqn:Hx; simpl.
  - rewrite body_returns by done. apply IH.
  - intros _. destruct (Hraises x s Hx) as [msg ->]. by exists msg.
Qed.
End loops.

(** ** [get_file_info] *)

Lemma get_file_info_returns w p :
  result (get_file_info w p) = Ret (info_of w p).
Proof.
  unfold info_of, get_file_info.
  destruct (os_stat w p) as [[sz [m|?]]|?]; simpl; try done.
  destruct (read_bytes w p); done.
Qed.

Lemma info_of_fails w p : metadata_fails w p -> info_of w p = MkInfo 0 "" "".
Proof.
  unfold metadata_fails, info_of, get_file_info.
  destruct (os_stat w p) as [[sz [m|?]]|?]; simpl; try done.
  destruct (read_bytes w p); done.
Qed.

Lemma info_of_reads w p st m data :
  os_stat w p = Gives st -> st_mtime_iso st = Gives m ->
  read_bytes w p = Gives data ->
  info_of w p = MkInfo (st_size st) m (MD5.hexdigest data).
Proof.
  unfold info_of, get_file_info. intros -> H ->.
  destruct st as [sz mt]. simpl in *. by subst mt.
Qed.

(** ** The loop over the files of a category *)

(** Encoding leaves no trace, so that a turn of the loop logs what
    [get_file_info] logs. *)
Lemma scan_file_trace w category p s :
  trace (scan_file w category p s) = trace (get_file_info w p).
Proof.
  unfold scan_file. rewrite trace_bind, get_file_info_returns.
  unfold file_id, make_document, urllib_quote, str_encode.
  destruct (valid_utf8 (category +:+ "_" +:+ path_name p));
    destruct (valid_utf8 (path_name p)); cbn; by rewrite app_nil_r.
Qed.

Lemma scan_file_result w category p s :
  encodable_file category p = true ->
  result (scan_file w category p s) = Ret (next_scan w category s p).
Proof.
  unfold encodable_file, scan_file. intros [H1 H2]%andb_true_iff.
  rewrite result_bind, get_file_info_returns.
  unfold file_id, make_document, urllib_quote, str_encode.
  rewrite H1, H2. reflexivity.
Qed.

(** A name that cannot be encoded stops the loop: the exception of
    [.encode()] is caught nowhere in [generate_pdf_index]. *)
Lemma scan_file_raised w category p s :
  encodable_file category p = false -> raised (scan_file w category p s).
Proof.
  unfold encodable_file, scan_file, raised. intros H.
  rewrite result_bind, get_file_info_returns.
  unfold file_id, make_document, urllib_quote, str_encode.
  destruct (valid_utf8 (category +:+ "_" +:+ path_name p));
    destruct (valid_utf8 (path_name p)); try done; cbn; eauto.
Qed.

Lemma scan_fold w category l s :
  foldl (next_scan w category) s l
  = {| sc_documents := sc_documents s ++ (document_of w category <$> l);
       sc_category_size :=
         sc_category_size s + sumZ (size ∘ info_of w <$> l);
       sc_total_documents := sc_total_documents s + Z.of_nat (length l);
       sc_total_size := sc_total_size s + sumZ (size ∘ info_of w <$> l) |}.
Proof.
  revert s. induction l as [|p l IH]; intros [ds cs td ts]; csimpl.
  - f_equal; [by rewrite app_nil_r|lia..].
  - rewrite IH. csimpl. f_equal; [by rewrite <- app_assoc|lia..].
Qed.

Lemma doc_sizes w category (l : list Path) :
  doc_size <$> (document_of w category <$> l) = (size ∘ info_of w <$> l).
Proof. rewrite <- list_fmap_compose. done. Qed.

Lemma scan_category_result w category b :
  forallb (encodable_file category) (pdf_paths w category) = true ->
  result (scan_category w category b) = Ret (next_build w b category).
Proof.
  unfold scan_category, next_build, docs_of, pdf_paths.
  rewrite result_bind.
  destruct (path_exists w (path_of category) && is_dir w (path_of category)).
  - intros Hok. rewrite !result_bind.
    rewrite (for_in_result _ (next_scan w category) (encodable_file category)
               (scan_file_result w category) _ _ Hok).
    simpl. rewrite scan_fold. simpl. rewrite doc_sizes, length_fmap. done.
  - intros _. simpl. do 2 f_equal; lia.
Qed.

Lemma scan_category_raised w category b :
  forallb (encodable_file category) (pdf_paths w category) = false ->
  raised (scan_category w category b).
Proof.
  unfold scan_category, pdf_paths, raised. rewrite result_bind.
  destruct (path_exists w (path_of category) && is_dir w (path_of category));
    [|done].
  intros Hbad. rewrite !result_bind. simpl.
  destruct (for_in_raised _ (next_scan w category) (encodable_file category)
              (scan_file_result w category) _
              (MkScan [] 0 (b_total_documents b) (b_total_size b))
              (scan_file_raised w category) Hbad) as [msg ->].
  by exists msg.
Qed.

Lemma build_index_result w cats :
  scannable w cats = true ->
  result (build_index w cats) = Ret (catalog_over w cats).
Proof.
  intros Hok. unfold build_index, catalog_over. rewrite result_bind.
  by rewrite (for_in_result _ (next_build w) _ (scan_category_result w)
                _ _ Hok).
Qed.

Lemma build_index_raised w cats :
  scannable w cats = false -> raised (build_index w cats).
Proof.
  intros Hbad. unfold build_index, raised. rewrite result_bind.
  destruct (for_in_raised _ (next_build w) _ (scan_category_result w) _
              (MkBuild (empty_index w) 0 0)
              (scan_category_raised w) Hbad) as [msg ->].
  by exists msg.
Qed.

(** ** The loop over the categories *)

Section build_fold.
Context (w : World).
Implicit Types (b : build_state) (cats : list string) (c : string).

Local Abbreviation run_over b cats := (foldl (next_build w) b cats).

Lemma build_fold_documents cats b c :
  documents (b_index (run_over b cats)) !! c
  = if decide (c ∈ cats) then Some (docs_of w c)
    else documents (b_index b) !! c.
Proof.
  revert b. induction cats as [|x cats IH]; intros b.
  - rewrite decide_False; [done|]. apply not_elem_of_nil.
  - change (run_over b (x :: cats)) with (run_over (next_build w b x) cats).
    rewrite IH. destruct (decide (c ∈ cats)) as [Hin|Hin].
    + rewrite decide_True; [done|]. by apply elem_of_cons; right.
    + simpl. destruct (decide (x = c)) as [->|Hne].
      * rewrite lookup_insert_eq, decide_True; [done|]. apply elem_of_cons; by left.
      * rewrite lookup_insert_ne by done. rewrite decide_False; [done|].
        intros [->|?]%elem_of_cons; done.
Qed.

(** The counts are the lengths of the lists, key by key. *)
Lemma build_fold_counts cats b :
  categoryCounts (statistics (b_index b))
    = Z.of_nat ∘ length <$> documents (b_index b) ->
  categoryCounts (statistics (b_index (run_over b cats)))
    = Z.of_nat ∘ length <$> documents (b_index (run_over b cats)).
Proof.
  revert b. induction cats as [|x cats IH]; intros b Hb; simpl; [done|].
  apply IH. simpl. by rewrite fmap_insert, Hb.
Qed.

Lemma sum_values_insert (counts : gmap string Z) c n :
  counts !! c = None -> sum_values (<[c := n]> counts) = n + sum_values counts.
Proof.
  intros Hc. unfold sum_values.
  rewrite map_fold_insert_L; [done| |done]. intros. lia.
Qed.

Lemma sum_sizes_insert (docs : gmap string (list Document)) c ds :
  docs !! c = None ->
  sum_sizes (<[c := ds]> docs) = sumZ (doc_size <$> ds) + sum_sizes docs.
Proof.
  intros Hc. unfold sum_sizes.
  rewrite map_fold_insert_L; [done| |done]. intros. lia.
Qed.

(** The running totals are the sums over what has been stored, as long as
    no category comes twice. *)
Lemma build_fold_totals cats b :
  NoDup cats ->
  (forall c, c ∈ cats -> documents (b_index b) !! c = None) ->
  categoryCounts (statistics (b_index b))
    = Z.of_nat ∘ length <$> documents (b_index b) ->
  b_total_documents b = sum_values (categoryCounts (statistics (b_index b))) ->
  b_total_size b = sum_sizes (documents (b_index b)) ->
  let b' := run_over b cats in
  b_total_documents b' = sum_values (categoryCounts (statistics (b_index b')))
  /\ b_total_size b' = sum_sizes (documents (b_index b')).
Proof.
  revert b. induction cats as [|x cats IH]; intros b Hnd Hfresh Hc Hd Hs;
    simpl; [done|].
  apply NoDup_cons in Hnd as [Hx Hnd].
  assert (documents (b_index b) !! x = None) as Hdx
    by (apply Hfresh, elem_of_cons; by left).
  assert (categoryCounts (statistics (b_index b)) !! x = None) as Hcx
    by (by rewrite Hc, lookup_fmap, Hdx).
  apply IH; simpl; try done.
  - intros c Hin. rewrite lookup_insert_ne by (by intros ->).
    apply Hfresh, elem_of_cons. by right.
  - by rewrite fmap_insert, Hc.
  - rewrite sum_values_insert by done. lia.
  - rewrite sum_sizes_insert by done. lia.
Qed.

Lemma build_fold_header cats b :
  let i := b_index b in
  let i' := b_index (run_over b cats) in
  lastUpdated i' = lastUpdated i /\ baseUrl i' = baseUrl i
  /\ version i' = version i /\ categories i' = categories i
  /\ categoryIcons i' = categoryIcons i.
Proof.
  revert b. induction cats as [|x cats IH]; intros b; simpl; [done|].
  apply (IH (next_build w b x)).
Qed.


End build_fold.

(** ** [generate_pdf_index] *)

Lemma catalog_over_documents w cats :
  documents (catalog_over w cats)
  = documents (b_index (foldl (next_build w) (MkBuild (empty_index w) 0 0) cats)).
Proof. done. Qed.

Lemma catalog_over_counts w cats :
  categoryCounts (statistics (catalog_over w cats))
  = categoryCounts
      (statistics
         (b_index (foldl (next_build w) (MkBuild (empty_index w) 0 0) cats))).
Proof. done. Qed.

Lemma catalog_documents w c :
  documents (catalog w) !! c
  = if decide (c ∈ CATEGORIES) then Some (docs_of w c) else None.
Proof.
  unfold catalog. by rewrite catalog_over_documents, build_fold_documents.
Qed.

Lemma catalog_counts w :
  categoryCounts (statistics (catalog w))
  = Z.of_nat ∘ length <$> documents (catalog w).
Proof.
  unfold catalog. rewrite catalog_over_counts, catalog_over_documents.
  apply build_fold_counts. simpl. by rewrite fmap_empty.
Qed.

Lemma CATEGORIES_NoDup : NoDup CATEGORIES.
Proof.
  unfold CATEGORIES.
  repeat (apply NoDup_cons; split;
          [apply (bool_decide_unpack _); vm_compute; exact I|]).
  apply NoDup_nil_2.
Qed.

Lemma catalog_totals w :
  totalDocuments (statistics (catalog w))
    = sum_values (categoryCounts (statistics (catalog w)))
  /\ totalSize (statistics (catalog w)) = sum_sizes (documents (catalog w)).
Proof.
  unfold catalog. rewrite catalog_over_counts, catalog_over_documents.
  apply (build_fold_totals w CATEGORIES (MkBuild (empty_index w) 0 0));
    [apply CATEGORIES_NoDup|done..].
Qed.

(** The generation returns what the scan built once the file is written,
    and raises what the scan or the write raised. *)
Lemma generate_pdf_index_result w :
  result (generate_pdf_index w)
  = match result (build_index w CATEGORIES) with
    | Ret index =>
        match dump_json w "pdf-index.json" with
        | Gives _ => Ret index
        | Fails msg => Raise (Exception msg)
        end
    | Raise e => Raise e
    end.
Proof.
  unfold generate_pdf_index. rewrite !result_bind. simpl.
  destruct (result (build_index w CATEGORIES)); [|done].
  rewrite !result_bind. simpl.
  destruct (dump_json w "pdf-index.json"); done.
Qed.

Lemma generate_pdf_index_scanned w :
  scannable w CATEGORIES = true ->
  result (generate_pdf_index w)
  = match dump_json w "pdf-index.json" with
    | Gives _ => Ret (catalog w)
    | Fails msg => Raise (Exception msg)
    end.
Proof.
  intros Hok. by rewrite generate_pdf_index_result, build_index_result.
Qed.

Lemma generate_pdf_index_aborted w :
  scannable w CATEGORIES = false -> raised (generate_pdf_index w).
Proof.
  intros Hbad. unfold raised. rewrite generate_pdf_index_result.
  destruct (build_index_raised w CATEGORIES Hbad) as [msg ->]. by exists msg.
Qed.

Lemma generate_pdf_index_returns w index :
  result (generate_pdf_index w) = Ret index ->
  scannable w CATEGORIES = true /\ index = catalog w
  /\ dump_json w "pdf-index.json" = Gives tt.
Proof.
  destruct (scannable w CATEGORIES) eqn:Hscan.
  - rewrite generate_pdf_index_scanned by done.
    destruct (dump_json w "pdf-index.json") as [[]|]; [|done].
    by intros [= <-].
  - destruct (generate_pdf_index_aborted w Hscan) as [msg ->]. done.
Qed.

(** Whatever the generation raises is of class [Exception]. *)
Lemma generate_pdf_index_raises w e :
  result (generate_pdf_index w) = Raise e -> exists msg, e = Exception msg.
Proof.
  destruct (scannable w CATEGORIES) eqn:Hscan.
  - rewrite generate_pdf_index_scanned by done.
    destruct (dump_json w "pdf-index.json") as [[]|msg]; [done|].
    intros [= <-]. by exists msg.
  - destruct (generate_pdf_index_aborted w Hscan) as [msg ->].
    intros [= <-]. by exists msg.
Qed.

(** ** Exceptions and traces *)

Lemma try_except_result {A} (body : IO A) handler :
  result (try_except body handler)
  = match result body with
    | Raise (Exception msg) => result (handler (Exception msg))
    | other => other
    end.
Proof. destruct body as [t [a|[msg|code]]]; reflexivity. Qed.

Lemma try_except_trace {A} (body : IO A) handler :
  trace (try_except body handler)
  = trace body ++ match result body with
                  | Raise (Exception msg) => trace (handler (Exception msg))
                  | _ => []
                  end.
Proof.
  destruct body as [t [a|[msg|code]]]; unfold trace; simpl;
    by rewrite ?app_nil_r.
Qed.

Section trace_all.
Context (P : event -> Prop).

Lemma trace_all_bind {A B} (m : IO A) (k : A -> IO B) :
  Forall P (trace m) -> (forall a, Forall P (trace (k a))) ->
  Forall P (trace (m ≫= k)).
Proof.
  intros Hm Hk. rewrite trace_bind. apply Forall_app. split; [done|].
  destruct (result m); [apply Hk|constructor].
Qed.

Lemma trace_all_for_in {A S} (body : A -> S -> IO S) l s :
  (forall x s, Forall P (trace (body x s))) ->
  Forall P (trace (for_in l body s)).
Proof.
  intros Hbody. revert s. induction l as [|x l IH]; intros s; simpl.
  - constructor.
  - apply trace_all_bind; auto.
Qed.

Lemma trace_all_try_except {A} (body : IO A) handler :
  Forall P (trace body) -> (forall e, Forall P (trace (handler e))) ->
  Forall P (trace (try_except body handler)).
Proof.
  intros Hb Hh. rewrite try_except_trace. apply Forall_app. split; [done|].
  destruct (result body) as [|[|]]; auto; constructor.
Qed.
End trace_all.

Lemma not_notification level s rest :
  s ∉ notify_lines -> ~ is_notification (EvLog level (Str s :: rest)).
Proof. done. Qed.

Ltac quiet_line :=
  apply not_notification, (bool_decide_unpack _); vm_compute; exact I.

Lemma get_file_info_quiet w p : quiet (trace (get_file_info w p)).
Proof.
  unfold get_file_info. apply trace_all_try_except.
  - destruct (os_stat w p) as [[sz [m|?]]|?]; simpl; try constructor.
    destruct (read_bytes w p); constructor.
  - intros e. repeat constructor. quiet_line.
Qed.

Lemma build_index_quiet w cats : quiet (trace (build_index w cats)).
Proof.
  unfold build_index. apply trace_all_bind; [|constructor].
  apply trace_all_for_in. intros c b. unfold scan_category.
  apply trace_all_bind; [|constructor].
  destruct (path_exists w (path_of c) && is_dir w (path_of c)); [|constructor].
  apply trace_all_bind; [repeat constructor; quiet_line|]. intros _.
  apply trace_all_bind.
  - apply trace_all_for_in. intros p s. rewrite scan_file_trace.
    apply get_file_info_quiet.
  - intros s. repeat constructor. quiet_line.
Qed.

Lemma generate_pdf_index_trace w :
  trace (generate_pdf_index w)
  = EvLog "INFO" [Str "Generating PDF index with updated categories..."]
    :: trace (build_index w CATEGORIES)
    ++ (if scannable w CATEGORIES then written w else []).
Proof.
  unfold generate_pdf_index. rewrite trace_bind. simpl. f_equal.
  rewrite trace_bind. f_equal.
  destruct (scannable w CATEGORIES) eqn:Hscan.
  - rewrite build_index_result by done. unfold json_dump, written.
    destruct (dump_json w "pdf-index.json"); reflexivity.
  - by destruct (build_index_raised w CATEGORIES Hscan) as [msg ->].
Qed.

Lemma generate_pdf_index_quiet w : quiet (trace (generate_pdf_index w)).
Proof.
  rewrite generate_pdf_index_trace. constructor; [quiet_line|].
  apply Forall_app. split; [apply build_index_quiet|].
  destruct (scannable w CATEGORIES); [|constructor].
  constructor; [by intros []|].
  destruct (dump_json w "pdf-index.json"); repeat constructor. quiet_line.
Qed.

(** ** [git_commit_and_push] *)

Ltac answer w argv :=
  destruct (subprocess_run w argv) as [[? ? ?]|?] eqn:?; simpl.

Ltac branch :=
  match goal with
  | |- context [Z.eqb ?z 0] => destruct (Z.eqb z 0) eqn:?
  | |- context [String.eqb ?a ?b] => destruct (String.eqb a b) eqn:?
  end; simpl.

(** Every way through the function: the answer to each command in the order
    they are launched, and the test that follows it. *)
Ltac git_cases w :=
  unfold git_commit_and_push;
  rewrite ?try_except_result, ?try_except_trace;
  unfold run, when_, nonzero, result, trace, git_add, git_status, git_commit,
    git_push; simpl;
  answer w ["git"; "add"; "."]; [branch; [|]|];
  [answer w ["git"; "status"; "--porcelain"]; [branch; [|]|] |..];
  [|answer w ["git"; "commit"; "-m"; commit_message w]; [branch; [|]|] |..];
  [|answer w ["git"; "push"; "origin"; "main"]; [branch; [|]|] |..].

Lemma git_commit_and_push_total w :
  result (git_commit_and_push w) = Ret true
  \/ result (git_commit_and_push w) = Ret false.
Proof. git_cases w; auto. Qed.

(** [True] is returned on one path only: all four commands ran and gave 0. *)
Lemma git_commit_and_push_true w :
  result (git_commit_and_push w) = Ret true ->
  trace (git_commit_and_push w)
  = [EvLog "INFO" [Str "Committing changes to Git..."];
     EvRun git_add; EvRun git_status; EvRun (git_commit w);
     EvLog "INFO" [Str "Pushing to GitHub..."];
     EvRun git_push;
     EvLog "INFO" [Str "✅ Successfully pushed changes to GitHub"]]
  /\ exists pushed,
       subprocess_run w git_push = Gives pushed /\ returncode pushed = 0.
Proof.
  git_cases w; intros; try discriminate.
  split; [reflexivity|]. eexists. split; [reflexivity|]. simpl. lia.
Qed.

Lemma git_commit_and_push_quiet w : quiet (trace (git_commit_and_push w)).
Proof.
  git_cases w;
    repeat (constructor; [first [quiet_line | by intros []]|]); constructor.
Qed.

(** ** [notify_ios_app] and [create_webhook_config] *)

Lemma notify_ios_app_runs w index :
  notify_ios_app w index
  = ([EvLog "INFO" [Str "Notifying iOS app about document updates..."];
      EvLog "INFO" [Str "📱 iOS App Notification Payload:"];
      EvLog "INFO" [Str "   Event Type: "; Str IOS_UPDATE_EVENT_TYPE];
      EvLog "INFO"
        [Str "   Total Documents: ";
         Num (cp_totalDocuments (client_payload (notify_payload w index)))];
      EvLog "INFO" [Str "   Categories: "; Str (join ", " CATEGORIES)];
      EvLog "INFO" [Str "   Special Update: Særavtale BNTF category renamed"];
      EvLog "INFO" [Str "✅ iOS app notification sent successfully"]],
     Ret true).
Proof. reflexivity. Qed.

Lemma create_webhook_config_runs w :
  create_webhook_config w
  = (EvDump "webhook-config.json" (DumpWebhook webhook_config)
     :: match dump_json w "webhook-config.json" with
        | Gives _ => [EvLog "INFO" [Str "✅ Webhook configuration created"]]
        | Fails _ => []
        end,
     match dump_json w "webhook-config.json" with
     | Gives _ => Ret tt
     | Fails msg => Raise (Exception msg)
     end).
Proof.
  unfold create_webhook_config, json_dump.
  destruct (dump_json w "webhook-config.json") as [[]|]; reflexivity.
Qed.

(** ** [main] *)

Lemma main_outside_repository w :
  path_exists w (path_of ".git") = false ->
  main w
  = (banner
     ++ [EvLog "ERROR"
           [Str "❌ Not in a Git repository. Please run from bntf-union-documents directory"]],
     Raise (SystemExit 1)).
Proof. intros H. unfold main. rewrite H. reflexivity. Qed.

Lemma main_generation_throws w e :
  path_exists w (path_of ".git") = true ->
  result (generate_pdf_index w) = Raise e ->
  main w
  = (banner ++ trace (generate_pdf_index w)
     ++ [EvLog "ERROR" [Str "❌ Failed to generate PDF index: "; Exc e]],
     Raise (SystemExit 1)).
Proof.
  intros H Hgen. destruct (generate_pdf_index_raises w e Hgen) as [msg ->].
  unfold main. rewrite H.
  rewrite (io_eta (generate_pdf_index w)), Hgen. reflexivity.
Qed.

Lemma main_publish_fails w index :
  path_exists w (path_of ".git") = true ->
  result (generate_pdf_index w) = Ret index ->
  result (git_commit_and_push w) = Ret false ->
  main w
  = (banner ++ trace (generate_pdf_index w) ++ trace (git_commit_and_push w)
     ++ [EvLog "ERROR" [Str "❌ Auto-update process failed"]],
     Raise (SystemExit 1)).
Proof.
  intros H. unfold main. rewrite H.
  destruct (generate_pdf_index w) as [tg rg].
  destruct (git_commit_and_push w) as [tp rp].
  unfold result, trace. cbn. intros -> ->. cbn. reflexivity.
Qed.

Lemma main_published w index :
  path_exists w (path_of ".git") = true ->
  result (generate_pdf_index w) = Ret index ->
  result (git_commit_and_push w) = Ret true ->
  main w
  = (banner ++ trace (generate_pdf_index w) ++ trace (git_commit_and_push w)
     ++ trace (notify_ios_app w index)
     ++ trace (create_webhook_config w)
     ++ match dump_json w "webhook-config.json" with
        | Gives _ => closing index
        | Fails _ => []
        end,
     match dump_json w "webhook-config.json" with
     | Gives _ => Ret tt
     | Fails msg => Raise (Exception msg)
     end).
Proof.
  intros H. unfold main. rewrite H.
  destruct (generate_pdf_index w) as [tg rg].
  destruct (git_commit_and_push w) as [tp rp].
  unfold result at 1 2. cbn [snd]. intros -> ->.
  unfold create_webhook_config, json_dump.
  destruct (dump_json w "webhook-config.json") as [[]|]; reflexivity.
Qed.

Lemma banner_quiet : quiet banner.
Proof. repeat (constructor; [quiet_line|]). constructor. Qed.

Lemma closing_quiet index : quiet (closing index).
Proof. repeat (constructor; [quiet_line|]). constructor. Qed.

Lemma create_webhook_config_quiet w : quiet (trace (create_webhook_config w)).
Proof.
  rewrite create_webhook_config_runs. unfold trace. simpl.
  constructor; [by intros []|].
  destruct (dump_json w "webhook-config.json"); repeat constructor. quiet_line.
Qed.

(** A run of [main] either logs no line of the notifier at all, or went
    through the publish and has the notifier's lines right after it. *)
Lemma main_notifies w :
  quiet (trace (main w))
  \/ (result (git_commit_and_push w) = Ret true
      /\ exists index after,
           result (generate_pdf_index w) = Ret index
           /\ trace (main w)
              = (banner ++ trace (generate_pdf_index w)
                 ++ trace (git_commit_and_push w))
                ++ trace (notify_ios_app w index) ++ after
           /\ quiet after).
Proof.
  destruct (path_exists w (path_of ".git")) eqn:Hgit.
  2: { left. rewrite main_outside_repository by done. unfold trace; cbn [fst].
       apply Forall_app. split; [apply banner_quiet|].
       repeat constructor. quiet_line. }
  destruct (result (generate_pdf_index w)) as [index|e] eqn:Hgen.
  2: { left. rewrite (main_generation_throws w e) by done.
       unfold trace at 1; cbn [fst].
       unfold quiet; rewrite !Forall_app; split_and!;
         [apply banner_quiet|apply generate_pdf_index_quiet|].
       repeat constructor. quiet_line. }
  destruct (git_commit_and_push_total w) as [Hpub|Hpub].
  - right. split; [done|]. exists index.
    rewrite (main_published w index) by done. unfold trace at 1; cbn [fst].
    eexists. split_and!; [done|by rewrite <- !app_assoc|].
    apply Forall_app. split; [apply create_webhook_config_quiet|].
    destruct (dump_json w "webhook-config.json");
      [apply closing_quiet|constructor].
  - left. rewrite (main_publish_fails w index) by done.
    unfold trace at 1; cbn [fst].
    unfold quiet; rewrite !Forall_app; split_and!;
      [apply banner_quiet|apply generate_pdf_index_quiet
      |apply git_commit_and_push_quiet|].
    repeat constructor. quiet_line.
Qed.

Lemma quiet_elem t ev : quiet t -> ev ∈ t -> ~ is_notification ev.
Proof. unfold quiet. rewrite Forall_forall. auto. Qed.

(** ** The claims about the run *)

(** C2: the process ends with status 0 on full success (inside a repository,
    the catalog generated, the publish reporting success, the webhook
    configuration written), and with a non-zero status when the repository
    check fails, when catalog generation raises, or when the publish fails.
    The repository check comes first: when it fails the whole trace is the
    banner and the error line, so no catalog work has been attempted. *)
Theorem C2_exit_codes w :
  (path_exists w (path_of ".git") = true ->
   (exists index, result (generate_pdf_index w) = Ret index) ->
   result (git_commit_and_push w) = Ret true ->
   dump_json w "webhook-config.json" = Gives tt ->
   exit_code (main w) = 0)
  /\ (path_exists w (path_of ".git") = false ->
      exit_code (main w) <> 0
      /\ trace (main w)
         = banner
           ++ [EvLog "ERROR"
                 [Str "❌ Not in a Git repository. Please run from bntf-union-documents directory"]])
  /\ (path_exists w (path_of ".git") = true ->
      (exists e, result (generate_pdf_index w) = Raise e) ->
      exit_code (main w) <> 0)
  /\ (path_exists w (path_of ".git") = true ->
      result (git_commit_and_push w) = Ret false ->
      exit_code (main w) <> 0).
Proof.
  split_and!.
  - intros Hgit [index Hgen] Hpub Hhook.
    rewrite (main_published w index) by done. by rewrite Hhook.
  - intros Hgit. by rewrite main_outside_repository.
  - intros Hgit [e Hgen]. by rewrite (main_generation_throws w e).
  - intros Hgit Hpub.
    destruct (result (generate_pdf_index w)) as [index|e] eqn:Hgen.
    + by rewrite (main_publish_fails w index).
    + by rewrite (main_generation_throws w e).
Qed.

Lemma C2_exit_codes_witness :
  exit_code (main sample_world) = 0
  /\ exit_code (main sample_world_no_git) <> 0
  /\ exit_code (main sample_world_read_only) <> 0
  /\ exit_code (main sample_world_rejected) <> 0.
Proof.
  split_and!.
  - destruct (C2_exit_codes sample_world) as (Hok & _).
    apply Hok; [|exists (catalog sample_world)|..]; vm_compute; reflexivity.
  - destruct (C2_exit_codes sample_world_no_git) as (_ & Hcheck & _).
    apply Hcheck. vm_compute. reflexivity.
  - destruct (C2_exit_codes sample_world_read_only) as (_ & _ & Hgen & _).
    apply Hgen; [|eexists]; vm_compute; reflexivity.
  - destruct (C2_exit_codes sample_world_rejected) as (_ & _ & _ & Hpub).
    apply Hpub; vm_compute; reflexivity.
Defined.

(** C3: a line of the notifier appears in a run only when the publish step
    returned success, after the push, and never when the publish fails or
    reports no changes (it then returns False); the notifier is run on the
    catalog the generation returned, and the payload it builds, like the
    count it logs, carries the [totalDocuments] of that catalog. *)
Theorem C3_notify_after_publish w :
  (forall ev, ev ∈ trace (main w) -> is_notification ev ->
     result (git_commit_and_push w) = Ret true
     /\ exists index before after,
          result (generate_pdf_index w) = Ret index
          /\ trace (main w)
             = before ++ trace (notify_ios_app w index) ++ after
          /\ EvRun git_push ∈ before /\ quiet before /\ quiet after)
  /\ (result (git_commit_and_push w) = Ret false -> quiet (trace (main w)))
  /\ (forall index,
        cp_totalDocuments (client_payload (notify_payload w index))
        = totalDocuments (statistics index)
        /\ EvLog "INFO"
             [Str "   Total Documents: ";
              Num (totalDocuments (statistics index))]
           ∈ trace (notify_ios_app w index)).
Proof.
  split_and!.
  - intros ev Hin Hev.
    destruct (main_notifies w)
      as [Hq|(Hpub & index & after & Hgen & Hmain & Hafter)].
    { by destruct (quiet_elem _ _ Hq Hin). }
    split; [done|]. eexists index, _, after.
    split_and!; [exact Hgen|exact Hmain| |  |done].
    + destruct (git_commit_and_push_true w Hpub) as [-> _].
      rewrite !elem_of_app. right; right.
      apply list_elem_of_In. simpl. tauto.
    + unfold quiet; rewrite !Forall_app; split_and!;
        [apply banner_quiet|apply generate_pdf_index_quiet
        |apply git_commit_and_push_quiet].
  - intros Hpub.
    destruct (main_notifies w) as [Hq|(Hpub' & _)]; [done|congruence].
  - intros index. split; [reflexivity|].
    rewrite notify_ios_app_runs. unfold trace. simpl.
    apply list_elem_of_In. simpl. tauto.
Qed.

Lemma C3_notify_after_publish_witness :
  result (git_commit_and_push sample_world) = Ret true
  /\ quiet (trace (main sample_world_unchanged))
  /\ quiet (trace (main sample_world_rejected)).
Proof.
  split_and!.
  - refine (proj1 (proj1 (C3_notify_after_publish sample_world)
             (EvLog "INFO" [Str "✅ iOS app notification sent successfully"])
             _ _)).
    + apply list_elem_of_In. vm_compute.
      repeat first [left; reflexivity | right].
    + simpl. apply (bool_decide_unpack _). vm_compute. exact I.
  - apply (C3_notify_after_publish sample_world_unchanged).
    vm_compute. reflexivity.
  - apply (C3_notify_after_publish sample_world_rejected).
    vm_compute. reflexivity.
Defined.

(** C8: when staging went through and the status query prints nothing but
    white space, the publish logs "No changes to commit" and returns False
    having launched the two commands [git add] and [git status] only: no
    commit is created, no push is attempted. *)
Theorem C8_nothing_to_commit w added status :
  subprocess_run w git_add = Gives added -> returncode added = 0 ->
  subprocess_run w git_status = Gives status -> strip (stdout status) = "" ->
  git_commit_and_push w
  = ([EvLog "INFO" [Str "Committing changes to Git..."];
      EvRun git_add; EvRun git_status;
      EvLog "INFO" [Str "No changes to commit"]],
     Ret false)
  /\ (EvRun (git_commit w) ∉ trace (git_commit_and_push w))
  /\ (EvRun git_push ∉ trace (git_commit_and_push w)).
Proof.
  intros Hadd Hrc Hstatus Hblank.
  assert (git_commit_and_push w
          = ([EvLog "INFO" [Str "Committing changes to Git..."];
              EvRun git_add; EvRun git_status;
              EvLog "INFO" [Str "No changes to commit"]], Ret false)) as ->.
  { unfold git_commit_and_push, run, git_add, git_status in *.
    rewrite Hadd. cbn. unfold nonzero. rewrite Hrc. cbn.
    rewrite Hstatus. cbn. rewrite Hblank. reflexivity. }
  split_and!; [done|..]; unfold trace; simpl;
    rewrite !elem_of_cons, elem_of_nil; intros H;
    repeat destruct H as [H|H]; done.
Qed.

Lemma C8_nothing_to_commit_witness :
  result (git_commit_and_push sample_world_unchanged) = Ret false.
Proof.
  pose proof (C8_nothing_to_commit sample_world_unchanged
                (MkProc 0 " " "") (MkProc 0 " " "")
                eq_refl eq_refl eq_refl eq_refl) as [H _].
  rewrite H. reflexivity.
Defined.

(** C9: whatever the catalog and whatever the world, the payload's
    [updatedCategories] is the whole configured list of six categories in the
    order of the configuration. *)
Theorem C9_updated_categories_fixed w index :
  updatedCategories (client_payload (notify_payload w index)) = CATEGORIES
  /\ CATEGORIES
     = ["protokoller"; "vedtekter"; "særavtale_bntf"; "hovedavtalen";
        "overenskomsten"; "other"]
  /\ length CATEGORIES = 6%nat.
Proof. done. Qed.

(** ** The claims about the catalog *)

Lemma get_file_info_logs w p : Forall is_log (trace (get_file_info w p)).
Proof.
  unfold get_file_info. apply trace_all_try_except.
  - destruct (os_stat w p) as [[sz [m|?]]|?]; simpl; try constructor.
    destruct (read_bytes w p); constructor.
  - intros e. by repeat constructor.
Qed.

Lemma build_index_logs w cats : Forall is_log (trace (build_index w cats)).
Proof.
  unfold build_index. apply trace_all_bind; [|constructor].
  apply trace_all_for_in. intros c b. unfold scan_category.
  apply trace_all_bind; [|constructor].
  destruct (path_exists w (path_of c) && is_dir w (path_of c)); [|constructor].
  apply trace_all_bind; [by repeat constructor|]. intros _.
  apply trace_all_bind.
  - apply trace_all_for_in. intros p s. rewrite scan_file_trace.
    apply get_file_info_logs.
  - intros s. by repeat constructor.
Qed.

(** A catalog is produced only by a scan that came to its end, and is the
    catalog of the world. *)
Lemma produces_scanned w index :
  produces w index -> scannable w CATEGORIES = true /\ index = catalog w.
Proof.
  intros [Hret|Hdump].
  { by destruct (generate_pdf_index_returns w index Hret) as (? & ? & _). }
  rewrite generate_pdf_index_trace in Hdump.
  apply elem_of_cons in Hdump as [?|Hdump]; [done|].
  apply elem_of_app in Hdump as [Hdump|Hdump].
  { pose proof (build_index_logs w CATEGORIES) as Hlogs.
    rewrite Forall_forall in Hlogs. by destruct (Hlogs _ Hdump). }
  destruct (scannable w CATEGORIES); [|by apply elem_of_nil in Hdump].
  split; [done|]. unfold written in Hdump.
  apply elem_of_cons in Hdump as [[= ->]|Hdump]; [done|].
  destruct (dump_json w "pdf-index.json");
    [apply elem_of_cons in Hdump as [?|Hdump]; [done|]|];
    by apply elem_of_nil in Hdump.
Qed.

Lemma produces_catalog w index : produces w index -> index = catalog w.
Proof. by intros [_ ?]%produces_scanned. Qed.

(** A scan that came to its end hands its catalog to the writer. *)
Lemma catalog_dumped w :
  scannable w CATEGORIES = true ->
  EvDump "pdf-index.json" (DumpIndex (catalog w))
    ∈ trace (generate_pdf_index w).
Proof.
  intros Hok. rewrite generate_pdf_index_trace, Hok.
  apply elem_of_cons; right. apply elem_of_app; right. apply elem_of_cons.
  by left.
Qed.

(** C1: in every catalog the generation produces, each configured category
    has a list of documents and a count, the count being the length of the
    list; [totalDocuments] is the sum of the values of [categoryCounts]; and
    [totalSize] is the sum of [size] over the documents of all categories. *)
Theorem C1_statistics_derived w index :
  produces w index ->
  (forall c, c ∈ CATEGORIES ->
     exists docs,
       documents index !! c = Some docs
       /\ categoryCounts (statistics index) !! c
          = Some (Z.of_nat (length docs)))
  /\ totalDocuments (statistics index)
     = sum_values (categoryCounts (statistics index))
  /\ totalSize (statistics index) = sum_sizes (documents index).
Proof.
  intros ->%produces_catalog. split; [|apply catalog_totals].
  intros c Hc. exists (docs_of w c).
  rewrite catalog_counts, lookup_fmap, catalog_documents.
  by rewrite decide_True.
Qed.

Lemma C1_statistics_derived_witness :
  totalDocuments (statistics (catalog sample_world))
  = sum_values (categoryCounts (statistics (catalog sample_world)))
  /\ totalSize (statistics (catalog sample_world))
     = sum_sizes (documents (catalog sample_world)).
Proof.
  apply (C1_statistics_derived sample_world (catalog sample_world)).
  left. vm_compute. reflexivity.
Defined.

Lemma pdf_paths_sorted w c : pdf_paths w c = sorted (glob_pdf w (path_of c)).
Proof.
  unfold pdf_paths, path_exists, is_dir, glob_pdf.
  destruct (node w (path_of c)); reflexivity.
Qed.

Lemma pdf_paths_elem w c p : p ∈ pdf_paths w c <-> p ∈ glob_pdf w (path_of c).
Proof. by rewrite pdf_paths_sorted, sorted_perm. Qed.

(** In a scan that comes to its end every matched name is UTF-8. *)
Lemma scannable_names w cats c p :
  scannable w cats = true -> c ∈ cats -> p ∈ glob_pdf w (path_of c) ->
  valid_utf8 (path_name p) = true.
Proof.
  unfold scannable. rewrite forallb_forall. intros Hcats Hc Hp.
  apply list_elem_of_In, Hcats in Hc. rewrite forallb_forall in Hc.
  apply pdf_paths_elem, list_elem_of_In, Hc in Hp.
  by apply andb_true_iff in Hp as [_ ?].
Qed.

Lemma produces_names w index c p :
  produces w index -> c ∈ CATEGORIES -> p ∈ glob_pdf w (path_of c) ->
  valid_utf8 (path_name p) = true.
Proof. intros [Hok _]%produces_scanned. by apply scannable_names. Qed.

Lemma CATEGORIES_valid c : c ∈ CATEGORIES -> valid_utf8 (c +:+ "_") = true.
Proof.
  unfold CATEGORIES. rewrite !elem_of_cons, elem_of_nil.
  intros [->|[->|[->|[->|[->|[->|[]]]]]]]; vm_compute; reflexivity.
Qed.

(** And the scan comes to its end when every matched name is UTF-8. *)
Lemma names_scannable w :
  (forall c p,
     c ∈ CATEGORIES -> p ∈ glob_pdf w (path_of c) ->
     valid_utf8 (path_name p) = true) ->
  scannable w CATEGORIES = true.
Proof.
  intros Hnames. unfold scannable. apply forallb_forall.
  intros c Hc%list_elem_of_In. apply forallb_forall.
  intros p Hp%list_elem_of_In%pdf_paths_elem.
  unfold encodable_file. rewrite <- append_assoc.
  rewrite valid_utf8_app by (by apply CATEGORIES_valid).
  rewrite (Hnames c p) by done. reflexivity.
Qed.

(** Every file the pattern matches has its record. *)
Lemma docs_of_elem w c p :
  p ∈ glob_pdf w (path_of c) -> document_of w c p ∈ docs_of w c.
Proof.
  intros Hp. unfold docs_of. apply list_elem_of_fmap_2.
  by apply pdf_paths_elem.
Qed.

Lemma get_file_info_caught w p :
  metadata_fails w p ->
  exists msg,
    get_file_info w p
    = ([EvLog "ERROR"
          [Str "Error getting file info for "; Str (path_str p); Str ": ";
           Exc (Exception msg)]],
       Ret (MkInfo 0 "" "")).
Proof.
  unfold metadata_fails, get_file_info.
  destruct (os_stat w p) as [[sz [m|?]]|?]; simpl; eauto.
  destruct (read_bytes w p); [done|eauto].
Qed.

(** C4, as the code has it: when reading the metadata of a matched file
    raises, the exception is caught in [get_file_info], which logs it and
    hands back size 0 and empty [modified] and [hash]; and provided the
    names of the files matched in the configured categories are all valid
    UTF-8, the scan runs to its end and the generation hands the catalog to
    the writer, in which the file has its record with those values, and so
    has every other matched file of every category. *)
Theorem C4_unreadable_file_recorded w c p :
  (forall c' q,
     c' ∈ CATEGORIES -> q ∈ glob_pdf w (path_of c') ->
     valid_utf8 (path_name q) = true) ->
  c ∈ CATEGORIES -> p ∈ glob_pdf w (path_of c) -> metadata_fails w p ->
  (exists msg,
     get_file_info w p
     = ([EvLog "ERROR"
           [Str "Error getting file info for "; Str (path_str p); Str ": ";
            Exc (Exception msg)]],
        Ret (MkInfo 0 "" "")))
  /\ exists index,
       result (build_index w CATEGORIES) = Ret index
       /\ EvDump "pdf-index.json" (DumpIndex index)
            ∈ trace (generate_pdf_index w)
       /\ (exists docs d,
             documents index !! c = Some docs /\ d ∈ docs
             /\ doc_filename d = path_name p
             /\ doc_size d = 0 /\ doc_modified d = "" /\ doc_hash d = "")
       /\ (forall c' q,
             c' ∈ CATEGORIES -> q ∈ glob_pdf w (path_of c') ->
             exists docs d,
               documents index !! c' = Some docs /\ d ∈ docs
               /\ doc_filename d = path_name q).
Proof.
  intros Hok%names_scannable Hc Hp Hfail.
  split; [by apply get_file_info_caught|].
  exists (catalog w). split_and!.
  - by apply build_index_result.
  - by apply catalog_dumped.
  - exists (docs_of w c), (document_of w c p).
    rewrite catalog_documents, decide_True by done.
    split_and!; try done; [by apply docs_of_elem|..];
      unfold document_of; simpl; by rewrite info_of_fails.
  - intros c' q Hc' Hq. exists (docs_of w c'), (document_of w c' q).
    rewrite catalog_documents, decide_True by done.
    split_and!; try done. by apply docs_of_elem.
Qed.

Lemma C4_unreadable_file_recorded_witness :
  exists index,
    result (build_index sample_world CATEGORIES) = Ret index
    /\ EvDump "pdf-index.json" (DumpIndex index)
         ∈ trace (generate_pdf_index sample_world)
    /\ (exists docs d,
          documents index !! "vedtekter" = Some docs /\ d ∈ docs
          /\ doc_filename d = "b.pdf"
          /\ doc_size d = 0 /\ doc_modified d = "" /\ doc_hash d = "")
    /\ (forall c' q,
          c' ∈ CATEGORIES -> q ∈ glob_pdf sample_world (path_of c') ->
          exists docs d,
            documents index !! c' = Some docs /\ d ∈ docs
            /\ doc_filename d = path_name q).
Proof.
  refine (proj2
    (C4_unreadable_file_recorded sample_world
       "vedtekter" (MkPath ["vedtekter"; "b.pdf"]) _ _ _ _)).
  - intros c' q. apply (scannable_names sample_world CATEGORIES c' q).
    vm_compute. reflexivity.
  - apply (bool_decide_unpack _). vm_compute. exact I.
  - apply (bool_decide_unpack _). vm_compute. exact I.
  - vm_compute. exact I.
Defined.

(** C4 as the specification has it fails where a matched file that cannot
    be read has a name that is not UTF-8: the scan raises on that file, the
    generation raises in turn and produces no catalog, so that the file is
    recorded nowhere, and the run ends with status 1. *)
Lemma C4_undecodable_name_aborts :
  "vedtekter" ∈ CATEGORIES
  /\ MkPath ["vedtekter"; String "255" ".pdf"]
       ∈ glob_pdf sample_world_undecodable (path_of "vedtekter")
  /\ metadata_fails sample_world_undecodable
       (MkPath ["vedtekter"; String "255" ".pdf"])
  /\ valid_utf8 (String "255" ".pdf") = false
  /\ (exists msg,
        result (build_index sample_world_undecodable CATEGORIES)
        = Raise (Exception msg))
  /\ (exists msg,
        result (generate_pdf_index sample_world_undecodable)
        = Raise (Exception msg))
  /\ (forall index, ~ produces sample_world_undecodable index)
  /\ exit_code (main sample_world_undecodable) = 1.
Proof.
  split_and!.
  - apply (bool_decide_unpack _). vm_compute. exact I.
  - apply (bool_decide_unpack _). vm_compute. exact I.
  - vm_compute. exact I.
  - vm_compute. reflexivity.
  - eexists. vm_compute. reflexivity.
  - eexists. vm_compute. reflexivity.
  - intros index [Hok _]%produces_scanned. vm_compute in Hok. discriminate.
  - vm_compute. reflexivity.
Qed.






(** ** Identifiers *)

Lemma le_bytes_length n x : length (MD5.le_bytes n x) = n.
Proof. unfold MD5.le_bytes. by rewrite length_map, length_seq. Qed.

Lemma digest_length bs : length (MD5.digest bs) = 16%nat.
Proof. unfold MD5.digest. by rewrite !length_app, !le_bytes_length. Qed.

Lemma hex_digit_is_hex n : is_hex_digit (MD5.hex_digit n).
Proof.
  unfold MD5.hex_digit, is_hex_digit. generalize (Z.to_nat n). intros k.
  do 16 (destruct k as [|k];
         [apply (bool_decide_unpack _); vm_compute; exact I|]).
  apply (bool_decide_unpack _). vm_compute. exact I.
Qed.

Lemma hex_cons b bs :
  list_ascii_of_string (MD5.hex (b :: bs))
  = MD5.hex_digit (b / 16) :: MD5.hex_digit (b mod 16)
    :: list_ascii_of_string (MD5.hex bs).
Proof. reflexivity. Qed.

Lemma hex_chars bs :
  length (list_ascii_of_string (MD5.hex bs)) = (2 * length bs)%nat
  /\ Forall is_hex_digit (list_ascii_of_string (MD5.hex bs)).
Proof.
  induction bs as [|b bs [Hlen Hall]].
  - split; [done|constructor].
  - rewrite hex_cons. split.
    + simpl. lia.
    + repeat (apply Forall_cons; split; [apply hex_digit_is_hex|]). done.
Qed.

Lemma substring_chars n s :
  list_ascii_of_string (String.substring 0 n s)
  = take n (list_ascii_of_string s).
Proof.
  revert s. induction n as [|n IH]; intros [|a s]; simpl; try done.
  by rewrite IH.
Qed.

Lemma string_length_chars s :
  String.length s = length (list_ascii_of_string s).
Proof. induction s; simpl; congruence. Qed.

(** An identifier is twelve characters, each a lower-case hexadecimal
    digit. *)
Lemma file_id_shape data :
  String.length (String.substring 0 12 (MD5.hexdigest data)) = 12%nat
  /\ Forall is_hex_digit
       (list_ascii_of_string (String.substring 0 12 (MD5.hexdigest data))).
Proof.
  unfold MD5.hexdigest.
  destruct (hex_chars (MD5.digest (MD5.bytes_of data))) as (Hlen & Hall).
  rewrite digest_length in Hlen.
  rewrite string_length_chars, substring_chars. split.
  - rewrite length_take. lia.
  - by apply Forall_take.
Qed.

(** ** Two runs over the same files *)

Lemma same_files_glob w1 w2 p :
  same_files w1 w2 -> glob_pdf w1 p ≡ₚ glob_pdf w2 p.
Proof.
  intros (Hnode & _). specialize (Hnode p). unfold glob_pdf.
  destruct (node w1 p), (node w2 p); simpl in Hnode; try done.
  by rewrite Hnode.
Qed.

Lemma same_files_info w1 w2 p : same_files w1 w2 -> info_of w1 p = info_of w2 p.
Proof.
  intros (_ & Hstat & Hread). unfold info_of, get_file_info.
  by rewrite Hstat, Hread.
Qed.

Lemma glob_pdf_shape w c p :
  p ∈ glob_pdf w (path_of c) -> exists name, p = MkPath [c; name].
Proof.
  unfold glob_pdf. destruct (node w (path_of c)); try by intros ?%elem_of_nil.
  intros (name & -> & _)%list_elem_of_fmap. by exists name.
Qed.

(** Matched files whose names are UTF-8 compare equal only when they are
    the same file. *)
Lemma glob_pdf_distinct w c :
  (forall p, p ∈ glob_pdf w (path_of c) -> valid_utf8 (path_name p) = true) ->
  forall p q,
    p ∈ glob_pdf w (path_of c) -> q ∈ glob_pdf w (path_of c) ->
    path_compare p q = Eq -> p = q.
Proof.
  intros Hvalid p q Hp Hq.
  pose proof (Hvalid p Hp) as Hvp. pose proof (Hvalid q Hq) as Hvq.
  apply glob_pdf_shape in Hp as [n1 ->]. apply glob_pdf_shape in Hq as [n2 ->].
  rewrite path_compare_same_directory by done.
  by intros ->%string_compare_eq.
Qed.

Lemma same_files_docs w1 w2 c :
  same_files w1 w2 ->
  (forall p, p ∈ glob_pdf w1 (path_of c) -> valid_utf8 (path_name p) = true) ->
  docs_of w1 c = docs_of w2 c.
Proof.
  intros Hsame Hvalid. unfold docs_of. rewrite !pdf_paths_sorted.
  rewrite (sorted_order_irrelevant _ _ (glob_pdf_distinct w1 c Hvalid)
             (same_files_glob w1 w2 _ Hsame)).
  apply list_fmap_ext. intros _ p _. unfold document_of.
  by rewrite (same_files_info w1 w2).
Qed.

Lemma same_files_build w1 w2 cats b1 b2 :
  same_files w1 w2 ->
  (forall c p,
     c ∈ cats -> p ∈ glob_pdf w1 (path_of c) ->
     valid_utf8 (path_name p) = true) ->
  b_index b2 = with_lastUpdated (lastUpdated (b_index b2)) (b_index b1) ->
  b_total_documents b2 = b_total_documents b1 ->
  b_total_size b2 = b_total_size b1 ->
  let b1' := foldl (next_build w1) b1 cats in
  let b2' := foldl (next_build w2) b2 cats in
  b_index b2' = with_lastUpdated (lastUpdated (b_index b2)) (b_index b1')
  /\ b_total_documents b2' = b_total_documents b1'
  /\ b_total_size b2' = b_total_size b1'.
Proof.
  intros Hsame. revert b1 b2.
  induction cats as [|c cats IH]; intros b1 b2 Hvalid Hi Hd Hs; simpl;
    [done|].
  assert (docs_of w1 c = docs_of w2 c) as Hdocs.
  { apply same_files_docs; [done|]. intros p. apply Hvalid.
    by apply elem_of_cons; left. }
  apply (IH (next_build w1 b1 c) (next_build w2 b2 c)); simpl.
  - intros c' p Hc'. apply Hvalid. by apply elem_of_cons; right.
  - rewrite Hdocs. rewrite Hi at 1. reflexivity.
  - by rewrite Hd, Hdocs.
  - by rewrite Hs, Hdocs.
Qed.

Lemma same_files_catalog w1 w2 :
  same_files w1 w2 -> scannable w1 CATEGORIES = true ->
  catalog w2 = with_lastUpdated (now_lastUpdated w2) (catalog w1).
Proof.
  intros Hsame Hok. unfold catalog, catalog_over.
  destruct (same_files_build w1 w2 CATEGORIES
              (MkBuild (empty_index w1) 0 0) (MkBuild (empty_index w2) 0 0)
              Hsame (fun c p => scannable_names w1 CATEGORIES c p Hok)
              eq_refl eq_refl eq_refl) as (Hi & Hd & Hs).
  cbv zeta. rewrite Hi, Hd, Hs. reflexivity.
Qed.

(** C6: the identifier of a record is the first twelve characters of the
    MD5 hex digest of "{category}_{filename}", twelve hexadecimal digits;
    and two runs over the same files, whatever the order the directories
    are listed in and whatever the clock shows, produce catalogs with the
    same documents (so the same identifiers) and the same statistics, equal
    in everything but [lastUpdated]. *)
Theorem C6_identifiers_deterministic :
  (forall w index c docs d,
     produces w index ->
     documents index !! c = Some docs -> d ∈ docs ->
     doc_id d
     = String.substring 0 12
         (MD5.hexdigest (c +:+ "_" +:+ doc_filename d))
     /\ String.length (doc_id d) = 12%nat
     /\ Forall is_hex_digit (list_ascii_of_string (doc_id d)))
  /\ (forall w1 w2 index1 index2,
        same_files w1 w2 ->
        produces w1 index1 -> produces w2 index2 ->
        documents index1 = documents index2
        /\ statistics index1 = statistics index2
        /\ index2 = with_lastUpdated (lastUpdated index2) index1).
Proof.
  split.
  - intros w index c docs d ->%produces_catalog. rewrite catalog_documents.
    case_decide; [|done]. intros [= <-] Hd.
    apply list_elem_of_fmap in Hd as (p & -> & _).
    split; [reflexivity|]. apply file_id_shape.
  - intros w1 w2 index1 index2 Hsame [Hok ->]%produces_scanned
      ->%produces_catalog.
    pose proof (same_files_catalog w1 w2 Hsame Hok) as Heq.
    split_and!; by rewrite Heq.
Qed.

Lemma sample_worlds_same_files : same_files sample_world sample_world_later.
Proof.
  split_and!; [|done..]. intros p. simpl.
  destruct (bool_decide (p = path_of "vedtekter")) eqn:Hved.
  - apply bool_decide_eq_true in Hved as ->. simpl.
    change ("c.pdf" :: ["notes.txt"; "a.pdf"; "b.pdf"]
            ≡ₚ ["a.pdf"; "b.pdf"] ++ "c.pdf" :: ["notes.txt"]).
    rewrite <- Permutation_middle. apply perm_skip.
    change ("notes.txt" :: ["a.pdf"; "b.pdf"]
            ≡ₚ ["a.pdf"; "b.pdf"] ++ "notes.txt" :: []).
    by rewrite <- Permutation_middle.
  - destruct (bool_decide (p = path_of ".git")); [simpl; done|].
    destruct (bool_decide (p = path_of "other")); done.
Qed.

Lemma C6_identifiers_deterministic_witness :
  doc_id (document_of sample_world "vedtekter" (MkPath ["vedtekter"; "a.pdf"]))
  = "637d7ed45c4d"
  /\ documents (catalog sample_world) = documents (catalog sample_world_later)
  /\ statistics (catalog sample_world)
     = statistics (catalog sample_world_later).
Proof.
  destruct C6_identifiers_deterministic as [Hid Hsame].
  split.
  - destruct (Hid sample_world (catalog sample_world) "vedtekter"
                (docs_of sample_world "vedtekter")
                (document_of sample_world "vedtekter"
                   (MkPath ["vedtekter"; "a.pdf"]))) as (-> & _).
    + left. vm_compute. reflexivity.
    + vm_compute. reflexivity.
    + apply list_elem_of_In. vm_compute.
      repeat first [left; reflexivity | right].
    + vm_compute. reflexivity.
  - destruct (Hsame sample_world sample_world_later
                (catalog sample_world) (catalog sample_world_later)
                sample_worlds_same_files) as (Hdocs & Hstats & _).
    + left. vm_compute. reflexivity.
    + left. vm_compute. reflexivity.
    + by split.
Defined.

(** ** Order of the records *)

Lemma path_le_same_directory c name1 name2 :
  valid_utf8 name1 = true -> valid_utf8 name2 = true ->
  path_le (MkPath [c; name1]) (MkPath [c; name2]) -> filename_le name1 name2.
Proof.
  intros H1 H2. rewrite path_le_compare, path_compare_same_directory by done.
  unfold filename_le, String.leb. by destruct (String.compare name1 name2).
Qed.

Lemma StronglySorted_fmap_on {A B} (P : A -> Prop) (f : A -> B)
    (R1 : relation A) (R2 : relation B) l :
  (forall x y, P x -> P y -> R1 x y -> R2 (f x) (f y)) ->
  Forall P l -> StronglySorted R1 l -> StronglySorted R2 (f <$> l).
Proof.
  intros Hf HP Hs. induction Hs as [|x l Hs IH Hx]; csimpl; [constructor|].
  apply Forall_cons in HP as [HPx HP]. constructor; [by apply IH|].
  rewrite Forall_fmap. rewrite Forall_forall in Hx, HP.
  apply Forall_forall. intros y Hy. simpl. auto.
Qed.

Lemma docs_of_filenames w c :
  doc_filename <$> docs_of w c = (path_name <$> pdf_paths w c).
Proof. unfold docs_of. by rewrite <- list_fmap_compose. Qed.

Lemma docs_of_sorted w c :
  (forall p, p ∈ glob_pdf w (path_of c) -> valid_utf8 (path_name p) = true) ->
  StronglySorted filename_le (doc_filename <$> docs_of w c).
Proof.
  intros Hvalid. rewrite docs_of_filenames, pdf_paths_sorted.
  apply (StronglySorted_fmap_on
           (fun p => exists name,
                       p = MkPath [c; name] /\ valid_utf8 name = true)
           _ path_le); [| |apply sorted_strongly].
  - intros _ _ (n1 & -> & H1) (n2 & -> & H2).
    by apply path_le_same_directory.
  - apply Forall_forall. intros p Hp. rewrite sorted_perm in Hp.
    destruct (glob_pdf_shape w c p Hp) as [name ->]. exists name.
    split; [done|]. exact (Hvalid _ Hp).
Qed.

(** C7: in every category of a produced catalog the records come in the
    order of their file names; and when the files matched in [vedtekter]
    are a.pdf, b.pdf and c.pdf, in whatever order the directory lists them
    and whatever else it holds, the names of the records are a, b, c in this
    order. *)
Theorem C7_sorted_by_filename w index :
  produces w index ->
  (forall c docs,
     documents index !! c = Some docs ->
     StronglySorted filename_le (doc_filename <$> docs))
  /\ (forall names,
        node w (path_of "vedtekter") = Dir names ->
        filter (fun n => matches_pdf n = true) names
          ≡ₚ ["a.pdf"; "b.pdf"; "c.pdf"] ->
        exists docs,
          documents index !! "vedtekter" = Some docs
          /\ doc_name <$> docs = ["a"; "b"; "c"]).
Proof.
  intros Hprod.
  pose proof (fun c p => produces_names w index c p Hprod) as Hnames.
  apply produces_catalog in Hprod as ->. split.
  - intros c docs. rewrite catalog_documents.
    case_decide; [|done]. intros [= <-]. apply docs_of_sorted.
    intros p. by apply Hnames.
  - intros names Hnode Hperm. exists (docs_of w "vedtekter").
    assert ("vedtekter" ∈ CATEGORIES) as Hc
      by (apply (bool_decide_unpack _); vm_compute; exact I).
    split.
    + rewrite catalog_documents. by apply decide_True.
    + unfold docs_of. rewrite pdf_paths_sorted.
      rewrite (sorted_order_irrelevant _
                 (path_div (path_of "vedtekter")
                    <$> ["a.pdf"; "b.pdf"; "c.pdf"])).
      * reflexivity.
      * apply glob_pdf_distinct. intros p. by apply Hnames.
      * unfold glob_pdf. rewrite Hnode. by apply fmap_Permutation.
Qed.

Lemma C7_sorted_by_filename_witness :
  exists docs,
    documents (catalog sample_world) !! "vedtekter" = Some docs
    /\ doc_name <$> docs = ["a"; "b"; "c"].
Proof.
  refine (proj2 (C7_sorted_by_filename sample_world (catalog sample_world) _)
            ["c.pdf"; "notes.txt"; "a.pdf"; "b.pdf"] _ _).
  - left. vm_compute. reflexivity.
  - vm_compute. reflexivity.
  - vm_compute.
    change ("c.pdf" :: ["a.pdf"; "b.pdf"] ≡ₚ ["a.pdf"; "b.pdf"] ++ ["c.pdf"]).
    apply Permutation_cons_append.
Defined.

(** ** One unreadable file more *)

Lemma sumZ_app l1 l2 : sumZ (l1 ++ l2) = sumZ l1 + sumZ l2.
Proof. induction l1 as [|x l1 IH]; simpl; lia. Qed.





Section one_more_file.
Context (w : World) (c : string) (before after : list string)
  (name : string).
Hypothesis listing : node w (path_of c) = Dir (before ++ name :: after).
Hypothesis matched : matches_pdf name = true.

Let w' : World := with_listing w (path_of c) (before ++ after).
Let p : Path := path_div (path_of c) name.

Lemma listing_info q : info_of w' q = info_of w q.
Proof. reflexivity. Qed.





End one_more_file.



(** * Further properties *)

(** ** The publish step *)

Lemma sample_produces : produces sample_world (catalog sample_world).
Proof. left. vm_compute. reflexivity. Qed.

Lemma git_commit_and_push_needs w :
  result (git_commit_and_push w) = Ret true ->
  exists added status committed pushed,
    subprocess_run w git_add = Gives added /\ returncode added = 0
    /\ subprocess_run w git_status = Gives status
    /\ strip (stdout status) <> ""
    /\ subprocess_run w (git_commit w) = Gives committed
    /\ returncode committed = 0
    /\ subprocess_run w git_push = Gives pushed /\ returncode pushed = 0.
Proof.
  git_cases w; intros; try discriminate.
  do 4 eexists. split_and!; try reflexivity; simpl.
  - by apply Z.eqb_eq.
  - by apply String.eqb_neq.
  - by apply Z.eqb_eq.
  - by apply Z.eqb_eq.
Qed.

Lemma git_commit_and_push_goes_through w added status committed pushed :
  subprocess_run w git_add = Gives added -> returncode added = 0 ->
  subprocess_run w git_status = Gives status -> strip (stdout status) <> "" ->
  subprocess_run w (git_commit w) = Gives committed ->
  returncode committed = 0 ->
  subprocess_run w git_push = Gives pushed -> returncode pushed = 0 ->
  result (git_commit_and_push w) = Ret true.
Proof.
  intros Hadd Hrc1 Hstatus Hblank%String.eqb_neq Hcommit Hrc3 Hpush Hrc4.
  unfold git_commit_and_push, run, git_add, git_status, git_commit, git_push
    in *.
  rewrite try_except_result, Hadd. cbn. unfold nonzero. rewrite Hrc1. cbn.
  rewrite Hstatus. cbn. rewrite Hblank. cbn.
  rewrite Hcommit. cbn. rewrite Hrc3. cbn.
  rewrite Hpush. cbn. rewrite Hrc4. reflexivity.
Qed.

(** X1: the publish step never lets an exception out: it returns True or
    False.  It returns True exactly when the four commands were all answered,
    [git add], [git commit] and [git push] with status 0 and [git status]
    with output that is not blank; the exit status of [git status] itself is
    not looked at. *)
Theorem publish_succeeds_iff w :
  (result (git_commit_and_push w) = Ret true
   \/ result (git_commit_and_push w) = Ret false)
  /\ (result (git_commit_and_push w) = Ret true <->
      exists added status committed pushed,
        subprocess_run w git_add = Gives added /\ returncode added = 0
        /\ subprocess_run w git_status = Gives status
        /\ strip (stdout status) <> ""
        /\ subprocess_run w (git_commit w) = Gives committed
        /\ returncode committed = 0
        /\ subprocess_run w git_push = Gives pushed /\ returncode pushed = 0).
Proof.
  split; [apply git_commit_and_push_total|]. split.
  - apply git_commit_and_push_needs.
  - intros (a & s & c & p & ? & ? & ? & ? & ? & ? & ? & ?).
    by apply (git_commit_and_push_goes_through w a s c p).
Qed.

(** X2: whatever git answers, the commands launched are an initial part of
    add, status, commit, push, in this order: a command is launched only
    when all the ones before it were, and none is launched twice. *)
Theorem publish_commands_in_order w :
  exists k,
    runs (trace (git_commit_and_push w))
    = take k [git_add; git_status; git_commit w; git_push].
Proof.
  git_cases w;
    first [by exists 1%nat | by exists 2%nat | by exists 3%nat
          | by exists 4%nat].
Qed.

(** X3: when the push is refused after a commit was made, the step logs
    the error output of the push and returns False; nothing is launched
    after the push, so the commit stays in the local repository. *)
Theorem publish_push_refused w added status committed pushed :
  subprocess_run w git_add = Gives added -> returncode added = 0 ->
  subprocess_run w git_status = Gives status -> strip (stdout status) <> "" ->
  subprocess_run w (git_commit w) = Gives committed ->
  returncode committed = 0 ->
  subprocess_run w git_push = Gives pushed -> returncode pushed <> 0 ->
  git_commit_and_push w
  = ([EvLog "INFO" [Str "Committing changes to Git..."];
      EvRun git_add; EvRun git_status; EvRun (git_commit w);
      EvLog "INFO" [Str "Pushing to GitHub..."];
      EvRun git_push;
      EvLog "ERROR"
        [Str "❌ Git operations failed: ";
         Exc (Exception ("Git push failed: " +:+ stderr pushed))]],
     Ret false).
Proof.
  intros Hadd Hrc1 Hstatus Hblank%String.eqb_neq Hcommit Hrc3 Hpush
    Hrc4%Z.eqb_neq.
  unfold git_commit_and_push, run, git_add, git_status, git_commit, git_push
    in *.
  rewrite Hadd. cbn. unfold nonzero. rewrite Hrc1. cbn.
  rewrite Hstatus. cbn. rewrite Hblank. cbn.
  rewrite Hcommit. cbn. rewrite Hrc3. cbn.
  rewrite Hpush. cbn. rewrite Hrc4. reflexivity.
Qed.

Lemma publish_push_refused_witness :
  result (git_commit_and_push sample_world_rejected) = Ret false.
Proof.
  rewrite (publish_push_refused sample_world_rejected
             (MkProc 0 "" "") (MkProc 0 "M  pdf-index.json" "")
             (MkProc 0 "" "") (MkProc 1 "" "rejected")); try reflexivity.
  - vm_compute. discriminate.
  - vm_compute. discriminate.
Defined.

(** ** The run as a whole *)

(** The four ways a run can go. *)
Lemma main_shapes w :
  (path_exists w (path_of ".git") = false
   /\ main w
      = (banner
         ++ [EvLog "ERROR"
               [Str "❌ Not in a Git repository. Please run from bntf-union-documents directory"]],
         Raise (SystemExit 1)))
  \/ (path_exists w (path_of ".git") = true
      /\ exists msg,
           result (generate_pdf_index w) = Raise (Exception msg)
           /\ main w
              = (banner ++ trace (generate_pdf_index w)
                 ++ [EvLog "ERROR"
                       [Str "❌ Failed to generate PDF index: ";
                        Exc (Exception msg)]],
                 Raise (SystemExit 1)))
  \/ (path_exists w (path_of ".git") = true
      /\ result (generate_pdf_index w) = Ret (catalog w)
      /\ result (git_commit_and_push w) = Ret false
      /\ main w
         = (banner ++ trace (generate_pdf_index w)
            ++ trace (git_commit_and_push w)
            ++ [EvLog "ERROR" [Str "❌ Auto-update process failed"]],
            Raise (SystemExit 1)))
  \/ (path_exists w (path_of ".git") = true
      /\ result (generate_pdf_index w) = Ret (catalog w)
      /\ result (git_commit_and_push w) = Ret true
      /\ main w
         = (banner ++ trace (generate_pdf_index w)
            ++ trace (git_commit_and_push w)
            ++ trace (notify_ios_app w (catalog w))
            ++ trace (create_webhook_config w)
            ++ match dump_json w "webhook-config.json" with
               | Gives _ => closing (catalog w)
               | Fails _ => []
               end,
            match dump_json w "webhook-config.json" with
            | Gives _ => Ret tt
            | Fails msg => Raise (Exception msg)
            end)).
Proof.
  destruct (path_exists w (path_of ".git")) eqn:Hgit.
  2: { left. split; [done|]. by apply main_outside_repository. }
  right. destruct (result (generate_pdf_index w)) as [index|e] eqn:Hgen.
  2: { left. split; [done|].
       destruct (generate_pdf_index_raises w e Hgen) as [msg ->].
       exists msg. split; [done|]. by apply main_generation_throws. }
  right. destruct (generate_pdf_index_returns w index Hgen) as (_ & -> & _).
  destruct (git_commit_and_push_total w) as [Hpub|Hpub].
  - right. split_and!; [done..|]. by apply main_published.
  - left. split_and!; [done..|]. by apply (main_publish_fails w (catalog w)).
Qed.

Lemma exit_code_pair t (r : pyres unit) :
  exit_code (t, r)
  = match r with
    | Ret _ => 0
    | Raise (SystemExit code) => code
    | Raise (Exception _) => 1
    end.
Proof. reflexivity. Qed.

(** X4: the run ends with status 0 or 1, and with 0 exactly when it ran
    inside a repository, the generation returned a catalog, the publish
    step returned True and the webhook configuration was written.  A run
    that pushed but could not write the webhook configuration ends with 1. *)
Theorem exit_code_zero_iff w :
  (exit_code (main w) = 0 \/ exit_code (main w) = 1)
  /\ (exit_code (main w) = 0 <->
      path_exists w (path_of ".git") = true
      /\ (exists index, result (generate_pdf_index w) = Ret index)
      /\ result (git_commit_and_push w) = Ret true
      /\ dump_json w "webhook-config.json" = Gives tt).
Proof.
  destruct (main_shapes w)
    as [(Hgit & ->)|[(Hgit & msg & Hgen & ->)
       |[(Hgit & Hgen & Hpub & ->)|(Hgit & Hgen & Hpub & ->)]]];
    rewrite !exit_code_pair.
  - split; [by right|]. split; [done|]. intros (H & _).
    by rewrite Hgit in H.
  - split; [by right|]. split; [done|]. intros (_ & [index H] & _).
    by rewrite Hgen in H.
  - split; [by right|]. split; [done|]. intros (_ & _ & H & _).
    by rewrite Hpub in H.
  - destruct (dump_json w "webhook-config.json") as [[]|].
    + split; [by left|]. split; [|done]. intros _.
      split_and!; [done| |done..]. by exists (catalog w).
    + split; [by right|]. split; [done|]. by intros (_ & _ & _ & H).
Qed.

Lemma logs_confined w t : Forall is_log t -> Forall (confined w) t.
Proof. intros H. eapply Forall_impl; [exact H|]. by intros []. Qed.

Lemma generate_pdf_index_confined w :
  Forall (confined w) (trace (generate_pdf_index w)).
Proof.
  rewrite generate_pdf_index_trace. constructor; [done|].
  apply Forall_app. split; [apply logs_confined, build_index_logs|].
  destruct (scannable w CATEGORIES); [|constructor].
  constructor; [by left|].
  destruct (dump_json w "pdf-index.json"); by repeat constructor.
Qed.

Lemma git_commit_and_push_confined w :
  Forall (confined w) (trace (git_commit_and_push w)).
Proof.
  git_cases w;
    repeat (constructor;
            [first [exact I
                   | apply (bool_decide_unpack _); vm_compute; exact I
                   | simpl; unfold git_add, git_status, git_commit, git_push;
                     rewrite !elem_of_cons; tauto]|]);
    constructor.
Qed.

Lemma main_confined w : Forall (confined w) (trace (main w)).
Proof.
  assert (forall t, Forall is_log t -> Forall (confined w) t) as Hlogs
    by apply logs_confined.
  destruct (main_shapes w)
    as [(Hgit & ->)|[(Hgit & msg & Hdump & ->)
       |[(Hgit & Hdump & Hpub & ->)|(Hgit & Hdump & Hpub & ->)]]];
    unfold trace at 1; cbn [fst]; rewrite ?Forall_app; split_and?;
    try apply generate_pdf_index_confined;
    try apply git_commit_and_push_confined;
    try (by repeat constructor).
  - rewrite create_webhook_config_runs. unfold trace; cbn [fst].
    constructor; [by right|].
    destruct (dump_json w "webhook-config.json"); by repeat constructor.
  - destruct (dump_json w "webhook-config.json"); by repeat constructor.
Qed.

(** X5: a run launches no program other than the four git commands and
    writes no file other than [pdf-index.json] and [webhook-config.json]. *)
Theorem main_effects_confined w :
  (forall argv,
     EvRun argv ∈ trace (main w) ->
     argv ∈ [git_add; git_status; git_commit w; git_push])
  /\ (forall file obj,
        EvDump file obj ∈ trace (main w) ->
        file = "pdf-index.json" \/ file = "webhook-config.json").
Proof.
  pose proof (main_confined w) as H. rewrite Forall_forall in H.
  split; [intros argv Hin|intros file obj Hin]; apply (H _ Hin).
Qed.

Lemma runs_app t1 t2 : runs (t1 ++ t2) = runs t1 ++ runs t2.
Proof. apply omap_app. Qed.

Lemma dumps_app t1 t2 : dumps (t1 ++ t2) = dumps t1 ++ dumps t2.
Proof. apply omap_app. Qed.

Lemma runs_logs t : Forall is_log t -> runs t = [].
Proof. induction 1 as [|[] t]; simpl; done. Qed.

Lemma dumps_logs t : Forall is_log t -> dumps t = [].
Proof. induction 1 as [|[] t]; simpl; done. Qed.

Lemma runs_elem t argv : EvRun argv ∈ t <-> argv ∈ runs t.
Proof.
  unfold runs. rewrite list_elem_of_omap. split.
  - intros H. by exists (EvRun argv).
  - intros ([] & H & [= ->]). done.
Qed.

Lemma dumps_elem t file obj : EvDump file obj ∈ t -> file ∈ dumps t.
Proof.
  unfold dumps. rewrite list_elem_of_omap. intros H. by exists (EvDump file obj).
Qed.

Lemma generate_pdf_index_runs w : runs (trace (generate_pdf_index w)) = [].
Proof.
  rewrite generate_pdf_index_trace. simpl. rewrite runs_app.
  rewrite (runs_logs _ (build_index_logs w CATEGORIES)).
  destruct (scannable w CATEGORIES); [|done]. unfold written. simpl.
  by destruct (dump_json w "pdf-index.json").
Qed.

(** The generation tries to write the catalog file when the scan came to
    its end, and not otherwise. *)
Lemma generate_pdf_index_dumps w :
  dumps (trace (generate_pdf_index w))
  = if scannable w CATEGORIES then ["pdf-index.json"] else [].
Proof.
  rewrite generate_pdf_index_trace. simpl. rewrite dumps_app.
  rewrite (dumps_logs _ (build_index_logs w CATEGORIES)).
  destruct (scannable w CATEGORIES); [|done]. unfold written. simpl.
  by destruct (dump_json w "pdf-index.json").
Qed.

Lemma git_commit_and_push_dumps w : dumps (trace (git_commit_and_push w)) = [].
Proof. git_cases w; reflexivity. Qed.

Lemma create_webhook_config_dumps w :
  dumps (trace (create_webhook_config w)) = ["webhook-config.json"].
Proof.
  rewrite create_webhook_config_runs. unfold trace; cbn [fst]. simpl.
  by destruct (dump_json w "webhook-config.json").
Qed.

Lemma notify_ios_app_logs w index :
  Forall is_log (trace (notify_ios_app w index)).
Proof. rewrite notify_ios_app_runs, trace_pair. by repeat constructor. Qed.

Lemma closing_logs index : Forall is_log (closing index).
Proof. by repeat constructor. Qed.

Lemma create_webhook_config_launches w :
  runs (trace (create_webhook_config w)) = [].
Proof.
  rewrite create_webhook_config_runs, trace_pair. simpl.
  by destruct (dump_json w "webhook-config.json").
Qed.

(** X6: a git command is launched only inside a repository and only once
    the catalog file has been written: the write of the catalog the
    generation returned comes earlier in the trace than any command.  When
    the generation raises, nothing is staged, committed or pushed. *)
Theorem main_publishes_written_catalog w argv :
  EvRun argv ∈ trace (main w) ->
  path_exists w (path_of ".git") = true
  /\ dump_json w "pdf-index.json" = Gives tt
  /\ exists index before after,
       result (generate_pdf_index w) = Ret index
       /\ trace (main w) = before ++ EvRun argv :: after
       /\ EvDump "pdf-index.json" (DumpIndex index) ∈ before.
Proof.
  assert (forall rest : list event,
            scannable w CATEGORIES = true -> runs rest = [] ->
            EvRun argv
              ∈ banner ++ trace (generate_pdf_index w)
                ++ trace (git_commit_and_push w) ++ rest ->
            exists before after,
              banner ++ trace (generate_pdf_index w)
                ++ trace (git_commit_and_push w) ++ rest
              = before ++ EvRun argv :: after
              /\ EvDump "pdf-index.json" (DumpIndex (catalog w)) ∈ before)
    as Hsplit.
  { intros rest Hok Hrest Hin.
    assert (EvRun argv ∈ trace (git_commit_and_push w)) as Hgit.
    { apply runs_elem in Hin. rewrite !runs_app in Hin.
      rewrite generate_pdf_index_runs, Hrest in Hin.
      simpl in Hin. rewrite app_nil_r in Hin. by apply runs_elem. }
    apply list_elem_of_split in Hgit as (l1 & l2 & ->).
    exists (banner ++ trace (generate_pdf_index w) ++ l1), (l2 ++ rest).
    split; [by rewrite <- !app_assoc|].
    apply elem_of_app; right. apply elem_of_app; left.
    by apply catalog_dumped. }
  destruct (main_shapes w)
    as [(Hgit & ->)|[(Hgit & msg & Hgen & ->)
       |[(Hgit & Hgen & Hpub & ->)|(Hgit & Hgen & Hpub & ->)]]];
    rewrite !trace_pair; intros Hin.
  - apply runs_elem in Hin. rewrite runs_app in Hin. simpl in Hin.
    by apply elem_of_nil in Hin.
  - apply runs_elem in Hin.
    rewrite !runs_app, generate_pdf_index_runs in Hin. simpl in Hin.
    by apply elem_of_nil in Hin.
  - destruct (generate_pdf_index_returns w _ Hgen) as (Hok & _ & Hdump).
    split_and!; [done..|]. exists (catalog w).
    destruct (Hsplit [EvLog "ERROR" [Str "❌ Auto-update process failed"]]
                Hok eq_refl Hin) as (before & after & Heq & Hdumped).
    exists before, after. split_and!; auto.
  - destruct (generate_pdf_index_returns w _ Hgen) as (Hok & _ & Hdump).
    split_and!; [done..|]. exists (catalog w).
    destruct (Hsplit (trace (notify_ios_app w (catalog w))
                      ++ trace (create_webhook_config w)
                      ++ match dump_json w "webhook-config.json" with
                         | Gives _ => closing (catalog w)
                         | Fails _ => []
                         end))
      as (before & after & Heq & Hdumped); [done| |done|].
    + rewrite !runs_app, create_webhook_config_launches.
      rewrite (runs_logs _ (notify_ios_app_logs w (catalog w))). simpl.
      destruct (dump_json w "webhook-config.json"); [|done].
      apply runs_logs, closing_logs.
    + exists before, after. split_and!; auto.
Qed.

Lemma main_publishes_written_catalog_witness :
  dump_json sample_world "pdf-index.json" = Gives tt.
Proof.
  refine (proj1 (proj2
    (main_publishes_written_catalog sample_world git_push _))).
  apply runs_elem, (bool_decide_unpack _). vm_compute. exact I.
Defined.

Lemma main_dumps w :
  dumps (trace (main w))
  = if path_exists w (path_of ".git")
    then dumps (trace (generate_pdf_index w))
         ++ match result (generate_pdf_index w),
                  result (git_commit_and_push w) with
            | Ret _, Ret true => ["webhook-config.json"]
            | _, _ => []
            end
    else [].
Proof.
  destruct (main_shapes w)
    as [(Hgit & ->)|[(Hgit & msg & Hgen & ->)
       |[(Hgit & Hgen & Hpub & ->)|(Hgit & Hgen & Hpub & ->)]]];
    rewrite trace_pair, Hgit, ?Hgen, ?Hpub, !dumps_app;
    rewrite ?git_commit_and_push_dumps; try done.
  rewrite create_webhook_config_dumps.
  rewrite (dumps_logs _ (notify_ios_app_logs w (catalog w))). simpl.
  destruct (dump_json w "webhook-config.json"); [|done].
  by rewrite (dumps_logs _ (closing_logs (catalog w))).
Qed.

(** X7: the webhook configuration is written in exactly the runs in which,
    in a repository, the generation returned a catalog and the publish step
    returned True; a generation that raised, and a failed or empty publish,
    leave the file untouched. *)
Theorem main_writes_webhook_iff w :
  (exists obj, EvDump "webhook-config.json" obj ∈ trace (main w))
  <-> path_exists w (path_of ".git") = true
      /\ (exists index, result (generate_pdf_index w) = Ret index)
      /\ result (git_commit_and_push w) = Ret true.
Proof.
  split.
  - intros [obj Hin%dumps_elem]. rewrite main_dumps in Hin.
    destruct (path_exists w (path_of ".git")); [|by apply elem_of_nil in Hin].
    split; [done|]. apply elem_of_app in Hin as [Hin|Hin].
    { rewrite generate_pdf_index_dumps in Hin.
      destruct (scannable w CATEGORIES);
        [apply elem_of_cons in Hin as [?|Hin]; [done|]|];
        by apply elem_of_nil in Hin. }
    destruct (result (generate_pdf_index w)) as [index|];
      [|by apply elem_of_nil in Hin].
    destruct (result (git_commit_and_push w)) as [[]|];
      try (by apply elem_of_nil in Hin).
    split; [by exists index|done].
  - intros (Hgit & [index Hgen] & Hpub).
    exists (DumpWebhook webhook_config).
    rewrite (main_published w index) by done.
    rewrite trace_pair, create_webhook_config_runs, trace_pair.
    do 4 (apply elem_of_app; right). apply elem_of_app; left.
    by apply elem_of_cons; left.
Qed.

Lemma git_commit_and_push_no_changes w added status :
  subprocess_run w git_add = Gives added -> returncode added = 0 ->
  subprocess_run w git_status = Gives status -> strip (stdout status) = "" ->
  git_commit_and_push w
  = ([EvLog "INFO" [Str "Committing changes to Git..."];
      EvRun git_add; EvRun git_status;
      EvLog "INFO" [Str "No changes to commit"]],
     Ret false).
Proof.
  intros Hadd Hrc Hstatus Hblank.
  unfold git_commit_and_push, run, git_add, git_status in *.
  rewrite Hadd. cbn. unfold nonzero. rewrite Hrc. cbn.
  rewrite Hstatus. cbn. rewrite Hblank. reflexivity.
Qed.

(** X8: a run over an unchanged working tree counts as a failure: once the
    generation has returned its catalog and the status comes back blank,
    the run logs "Auto-update process failed" and ends with status 1,
    without notifying and without writing the webhook configuration. *)
Theorem main_nothing_to_commit w index added status :
  path_exists w (path_of ".git") = true ->
  result (generate_pdf_index w) = Ret index ->
  subprocess_run w git_add = Gives added -> returncode added = 0 ->
  subprocess_run w git_status = Gives status -> strip (stdout status) = "" ->
  exit_code (main w) = 1
  /\ trace (main w)
     = banner ++ trace (generate_pdf_index w)
       ++ [EvLog "INFO" [Str "Committing changes to Git..."];
           EvRun git_add; EvRun git_status;
           EvLog "INFO" [Str "No changes to commit"];
           EvLog "ERROR" [Str "❌ Auto-update process failed"]].
Proof.
  intros Hgit Hgen Hadd Hrc Hstatus Hblank.
  pose proof (git_commit_and_push_no_changes w added status
                Hadd Hrc Hstatus Hblank) as Hpub.
  rewrite (main_publish_fails w index); [|done..|by rewrite Hpub].
  rewrite exit_code_pair, trace_pair, Hpub, trace_pair. done.
Qed.

Lemma main_nothing_to_commit_witness :
  exit_code (main sample_world_unchanged) = 1.
Proof.
  apply (main_nothing_to_commit sample_world_unchanged
           (catalog sample_world_unchanged)
           (MkProc 0 " " "") (MkProc 0 " " ""));
    first [reflexivity | vm_compute; reflexivity].
Defined.

(** ** The catalog *)

Lemma catalog_over_header w cats :
  lastUpdated (catalog_over w cats) = now_lastUpdated w
  /\ baseUrl (catalog_over w cats) = BASE_URL
  /\ version (catalog_over w cats) = "2.0"
  /\ categories (catalog_over w cats) = CATEGORY_DISPLAY_NAMES
  /\ categoryIcons (catalog_over w cats) = CATEGORY_ICONS.
Proof.
  destruct (build_fold_header w cats (MkBuild (empty_index w) 0 0))
    as (H1 & H2 & H3 & H4 & H5).
  split_and!; [exact H1|exact H2|exact H3|exact H4|exact H5].
Qed.

Lemma catalog_header w :
  lastUpdated (catalog w) = now_lastUpdated w
  /\ baseUrl (catalog w) = BASE_URL
  /\ version (catalog w) = "2.0"
  /\ categories (catalog w) = CATEGORY_DISPLAY_NAMES
  /\ categoryIcons (catalog w) = CATEGORY_ICONS.
Proof. exact (catalog_over_header w CATEGORIES). Qed.

Lemma catalog_document_keys w :
  dom (documents (catalog w)) = list_to_set CATEGORIES.
Proof.
  apply set_eq. intros c.
  rewrite elem_of_dom, elem_of_list_to_set, catalog_documents.
  case_decide as Hc; split; intros H; try done; by destruct H.
Qed.

Lemma catalog_count_keys w :
  dom (categoryCounts (statistics (catalog w))) = list_to_set CATEGORIES.
Proof. rewrite catalog_counts, dom_fmap_L. apply catalog_document_keys. Qed.

(** X9: a produced catalog has an entry in [documents] and in
    [categoryCounts] for each configured category and for nothing else,
    whether or not the directory exists; the scan leaves the header alone:
    version "2.0", the base URL and the two category tables of the
    configuration, and the time read at the start. *)
Theorem catalog_keys w index :
  produces w index ->
  dom (documents index) = list_to_set CATEGORIES
  /\ dom (categoryCounts (statistics index)) = list_to_set CATEGORIES
  /\ lastUpdated index = now_lastUpdated w
  /\ baseUrl index = BASE_URL
  /\ version index = "2.0"
  /\ categories index = CATEGORY_DISPLAY_NAMES
  /\ categoryIcons index = CATEGORY_ICONS.
Proof.
  intros ->%produces_catalog.
  split; [apply catalog_document_keys|].
  split; [apply catalog_count_keys|apply catalog_header].
Qed.

Lemma catalog_keys_witness :
  dom (documents (catalog sample_world)) = list_to_set CATEGORIES.
Proof.
  apply (catalog_keys sample_world (catalog sample_world)).
  left. vm_compute. reflexivity.
Defined.

Lemma path_name_div c name : path_name (path_div (path_of c) name) = name.
Proof. reflexivity. Qed.

Lemma glob_pdf_names w c :
  path_name <$> glob_pdf w (path_of c)
  = match node w (path_of c) with
    | Dir names => filter (fun n => matches_pdf n = true) names
    | _ => []
    end.
Proof.
  unfold glob_pdf. destruct (node w (path_of c)); try done.
  rewrite <- list_fmap_compose. apply list_fmap_id.
Qed.

(** X10: the records of a category are the entries of its directory whose
    name ends in [.pdf], each once per listing and nothing else: no other
    file gets a record, none is dropped, and when the directory lists no
    name twice no file name comes twice in the catalog. *)
Theorem catalog_lists_matched_files w index c docs :
  produces w index -> documents index !! c = Some docs ->
  doc_filename <$> docs
    ≡ₚ match node w (path_of c) with
       | Dir names => filter (fun n => matches_pdf n = true) names
       | _ => []
       end
  /\ Forall (fun d => matches_pdf (doc_filename d) = true) docs
  /\ (forall names,
        node w (path_of c) = Dir names -> NoDup names ->
        NoDup (doc_filename <$> docs)).
Proof.
  intros ->%produces_catalog. rewrite catalog_documents.
  case_decide; [|done]. intros [= <-].
  assert (doc_filename <$> docs_of w c
            ≡ₚ match node w (path_of c) with
               | Dir names => filter (fun n => matches_pdf n = true) names
               | _ => []
               end) as Hperm.
  { by rewrite docs_of_filenames, pdf_paths_sorted, sorted_perm,
      glob_pdf_names. }
  split_and!; [done| |].
  - assert (Forall (fun n => matches_pdf n = true)
              (doc_filename <$> docs_of w c)) as Hall.
    { rewrite Hperm. destruct (node w (path_of c)); try constructor.
      apply Forall_forall. by intros n [? _]%list_elem_of_filter. }
    by apply Forall_fmap in Hall.
  - intros names Hnode Hnd. rewrite Hperm, Hnode. by apply NoDup_filter.
Qed.

Lemma catalog_lists_matched_files_witness :
  exists docs,
    documents (catalog sample_world) !! "vedtekter" = Some docs
    /\ doc_filename <$> docs ≡ₚ ["c.pdf"; "a.pdf"; "b.pdf"].
Proof.
  exists (docs_of sample_world "vedtekter").
  assert (documents (catalog sample_world) !! "vedtekter"
          = Some (docs_of sample_world "vedtekter")) as Hdocs
    by (vm_compute; reflexivity).
  split; [exact Hdocs|].
  apply (catalog_lists_matched_files sample_world (catalog sample_world)
           "vedtekter" _ sample_produces Hdocs).
Defined.

Lemma configured_tables c :
  c ∈ CATEGORIES ->
  CATEGORY_DISPLAY_NAMES !! c
    = Some (default c (CATEGORY_DISPLAY_NAMES !! c))
  /\ CATEGORY_ICONS !! c = Some (default "📄" (CATEGORY_ICONS !! c)).
Proof.
  unfold CATEGORIES. rewrite !elem_of_cons, elem_of_nil.
  intros [->|[->|[->|[->|[->|[->|[]]]]]]]; split; vm_compute; reflexivity.
Qed.

(** X11: the copies a record carries agree with the catalog that holds
    it: its category is the key it is filed under, its display name and icon
    are the entries of the catalog's own tables for that key (the fallbacks
    of the two lookups never apply), and its URL is the catalog's base URL,
    the category and the quoted file name. *)
Theorem records_agree_with_tables w index c docs d :
  produces w index -> documents index !! c = Some docs -> d ∈ docs ->
  doc_category d = c
  /\ categories index !! c = Some (doc_categoryDisplayName d)
  /\ categoryIcons index !! c = Some (doc_icon d)
  /\ doc_url d
     = baseUrl index +:+ "/" +:+ c +:+ "/" +:+ quote (doc_filename d).
Proof.
  intros ->%produces_catalog. rewrite catalog_documents.
  case_decide as Hc; [|done]. intros [= <-] Hd.
  apply list_elem_of_fmap in Hd as (p & -> & _).
  destruct (catalog_header w) as (_ & -> & _ & -> & ->).
  destruct (configured_tables c Hc) as [Hname Hicon].
  split_and!; try done.
Qed.

Lemma records_agree_with_tables_witness :
  categories (catalog sample_world) !! "vedtekter" = Some "Vedtekter".
Proof.
  refine (proj1 (proj2
    (records_agree_with_tables sample_world (catalog sample_world) "vedtekter"
       (docs_of sample_world "vedtekter")
       (document_of sample_world "vedtekter" (MkPath ["vedtekter"; "a.pdf"]))
       sample_produces _ _))).
  - vm_compute. reflexivity.
  - apply list_elem_of_In. vm_compute.
    repeat first [left; reflexivity | right].
Defined.

Lemma hexdigest_length data : String.length (MD5.hexdigest data) = 32%nat.
Proof.
  unfold MD5.hexdigest. rewrite string_length_chars.
  destruct (hex_chars (MD5.digest (MD5.bytes_of data))) as [-> _].
  by rewrite digest_length.
Qed.

(** X12: a matched file whose metadata can be read is recorded with it, and
    silently: [get_file_info] logs nothing and returns the size of the stat,
    the modification time and the MD5 of the bytes, which the record of the
    file carries; the hash is 32 characters long. *)
Theorem readable_file_recorded w index c p st mtime data :
  produces w index ->
  c ∈ CATEGORIES -> p ∈ glob_pdf w (path_of c) ->
  os_stat w p = Gives st -> st_mtime_iso st = Gives mtime ->
  read_bytes w p = Gives data ->
  get_file_info w p
  = ([], Ret (MkInfo (st_size st) mtime (MD5.hexdigest data)))
  /\ exists docs d,
       documents index !! c = Some docs /\ d ∈ docs
       /\ doc_filename d = path_name p
       /\ doc_size d = st_size st /\ doc_modified d = mtime
       /\ doc_hash d = MD5.hexdigest data
       /\ String.length (doc_hash d) = 32%nat.
Proof.
  intros ->%produces_catalog Hc Hp Hstat Hmtime Hread. split.
  - unfold get_file_info. rewrite Hstat. cbn. rewrite Hmtime. cbn.
    rewrite Hread. reflexivity.
  - pose proof (docs_of_elem w c p Hp) as Hin.
    exists (docs_of w c), (document_of w c p).
    rewrite catalog_documents, decide_True by done.
    split; [done|]. split; [exact Hin|].
    unfold document_of. rewrite (info_of_reads w p st mtime data) by done.
    split_and!; [reflexivity..|exact (hexdigest_length data)].
Qed.

Lemma readable_file_recorded_witness :
  get_file_info sample_world (MkPath ["vedtekter"; "a.pdf"])
  = ([], Ret (MkInfo 1024 "2024-05-01T10:00:00+00:00"
                (MD5.hexdigest "%PDF-1.4"))).
Proof.
  refine (proj1
    (readable_file_recorded sample_world (catalog sample_world) "vedtekter"
       (MkPath ["vedtekter"; "a.pdf"])
       (MkStat 1024 (Gives "2024-05-01T10:00:00+00:00"))
       "2024-05-01T10:00:00+00:00" "%PDF-1.4" sample_produces _ _ _ _ _)).
  - apply (bool_decide_unpack _). vm_compute. exact I.
  - apply (bool_decide_unpack _). vm_compute. exact I.
  - reflexivity.
  - reflexivity.
  - reflexivity.
Defined.

(** X16: the payload built from a produced catalog is consistent in
    itself: its total is the sum of its per-category counts, the counts are
    keyed by exactly the categories it lists as updated, its version is the
    catalog's, and its index URL is the catalog's base URL followed by the
    name of the catalog file. *)
Theorem payload_consistent w index :
  produces w index ->
  cp_totalDocuments (client_payload (notify_payload w index))
  = sum_values (cp_categoryCounts (client_payload (notify_payload w index)))
  /\ dom (cp_categoryCounts (client_payload (notify_payload w index)))
     = list_to_set (updatedCategories (client_payload (notify_payload w index)))
  /\ cp_version (client_payload (notify_payload w index)) = version index
  /\ indexUrl (client_payload (notify_payload w index))
     = baseUrl index +:+ "/pdf-index.json".
Proof.
  intros ->%produces_catalog.
  pose proof (catalog_count_keys w) as Hdom.
  destruct (catalog_header w) as (_ & Hbase & _).
  cbn [notify_payload client_payload cp_totalDocuments cp_categoryCounts
         updatedCategories cp_version indexUrl].
  split_and!.
  - apply catalog_totals.
  - exact Hdom.
  - reflexivity.
  - rewrite Hbase. reflexivity.
Qed.

Lemma payload_consistent_witness :
  cp_totalDocuments (client_payload (notify_payload sample_world
                                       (catalog sample_world)))
  = sum_values (cp_categoryCounts
                  (client_payload (notify_payload sample_world
                                     (catalog sample_world)))).
Proof.
  apply (payload_consistent sample_world (catalog sample_world)).
  left. vm_compute. reflexivity.
Defined.

(** ** Names and URLs *)

Lemma string_length_app s t :
  String.length (s +:+ t) = (String.length s + String.length t)%nat.
Proof.
  induction s as [|a s IH]; [done|]. rewrite append_cons. simpl.
  by rewrite IH.
Qed.

Lemma append_cancel_l s x y : s +:+ x = s +:+ y -> x = y.
Proof.
  induction s as [|a s IH]; [done|]. rewrite !append_cons.
  intros [= H]. auto.
Qed.

Lemma substring_prefix s t :
  String.substring 0 (String.length s) (s +:+ t) = s.
Proof.
  induction s as [|a s IH]; [by destruct t|]. rewrite append_cons. simpl.
  by rewrite IH.
Qed.

Lemma substring_all s : String.substring 0 (String.length s) s = s.
Proof. induction s as [|a s IH]; simpl; [done|]. by rewrite IH. Qed.

Lemma substring_split s i :
  (i <= String.length s)%nat ->
  s = String.substring 0 i s +:+ String.substring i (String.length s - i) s.
Proof.
  revert i. induction s as [|a s IH]; intros [|i] Hi.
  - reflexivity.
  - simpl in Hi. lia.
  - rewrite Nat.sub_0_r, substring_all. reflexivity.
  - simpl. rewrite append_cons. f_equal. apply IH. simpl in Hi. lia.
Qed.

Lemma ends_with_split suffix s :
  ends_with suffix s = true -> exists stem, s = stem +:+ suffix.
Proof.
  unfold ends_with. intros [Hle Heq%String.eqb_eq]%andb_true_iff.
  apply Nat.leb_le in Hle.
  exists (String.substring 0 (String.length s - String.length suffix) s).
  pose proof (substring_split s (String.length s - String.length suffix))
    as Hs.
  replace (String.length s - (String.length s - String.length suffix))%nat
    with (String.length suffix) in Hs by lia.
  rewrite Heq in Hs. apply Hs. lia.
Qed.

Lemma rfind_extension stem : rfind "." (stem +:+ ".pdf") = len stem.
Proof.
  unfold len. induction stem as [|a stem IH]; [reflexivity|].
  rewrite append_cons. cbn [rfind String.length]. rewrite IH.
  destruct (0 <=? Z.of_nat (String.length stem)) eqn:E; lia.
Qed.

Lemma path_stem_extension c stem :
  path_stem (MkPath [c; stem +:+ ".pdf"])
  = if String.eqb stem "" then ".pdf" else stem.
Proof.
  unfold path_stem.
  change (path_name (MkPath [c; stem +:+ ".pdf"])) with (stem +:+ ".pdf").
  rewrite rfind_extension. unfold len. rewrite string_length_app.
  destruct stem as [|a stem]; [reflexivity|].
  change (String a stem =? "")%string with false.
  assert ((0 <? Z.of_nat (String.length (String a stem)))
          && (Z.of_nat (String.length (String a stem))
              <? Z.of_nat (String.length (String a stem)
                           + String.length ".pdf") - 1) = true) as ->.
  { apply andb_true_iff. split; apply Z.ltb_lt; simpl; lia. }
  rewrite Nat2Z.id. apply substring_prefix.
Qed.

Lemma docs_of_shape w c d :
  d ∈ docs_of w c ->
  exists name,
    matches_pdf name = true /\ d = document_of w c (MkPath [c; name]).
Proof.
  intros (p & -> & Hp%pdf_paths_elem)%list_elem_of_fmap.
  unfold glob_pdf in Hp. destruct (node w (path_of c));
    try by apply elem_of_nil in Hp.
  apply list_elem_of_fmap in Hp as (name & -> & [Hm _]%list_elem_of_filter).
  by exists name.
Qed.

(** X13: the name of a record is its file name without the [.pdf] at the
    end, dots earlier in the name being kept; the one exception is a file
    called just [.pdf], whose name is [.pdf] too. *)
Theorem record_name_drops_extension w index c docs d :
  produces w index -> documents index !! c = Some docs -> d ∈ docs ->
  if String.eqb (doc_filename d) ".pdf"
  then doc_name d = ".pdf"
  else doc_filename d = doc_name d +:+ ".pdf".
Proof.
  intros ->%produces_catalog. rewrite catalog_documents.
  case_decide; [|done]. intros [= <-] (name & Hm & ->)%docs_of_shape.
  apply ends_with_split in Hm as [stem ->].
  unfold document_of. cbn [record doc_filename doc_name].
  change (path_name (MkPath [c; stem +:+ ".pdf"])) with (stem +:+ ".pdf").
  rewrite path_stem_extension. destruct stem as [|a stem]; [reflexivity|].
  change (String a stem =? "")%string with false.
  destruct (String.eqb_spec (String a stem +:+ ".pdf") ".pdf") as [Heq|];
    [|done].
  apply (f_equal String.length) in Heq. rewrite string_length_app in Heq.
  simpl in Heq. lia.
Qed.

Lemma record_name_drops_extension_witness :
  doc_name (document_of sample_world "vedtekter"
              (MkPath ["vedtekter"; "a.pdf"])) +:+ ".pdf"
  = "a.pdf".
Proof.
  symmetry.
  apply (record_name_drops_extension sample_world (catalog sample_world)
           "vedtekter" (docs_of sample_world "vedtekter")
           (document_of sample_world "vedtekter"
              (MkPath ["vedtekter"; "a.pdf"])) sample_produces).
  - vm_compute. reflexivity.
  - apply list_elem_of_In. vm_compute.
    repeat first [left; reflexivity | right].
Defined.

Lemma hex_value_digit n : (n < 16)%nat -> hex_value (HEX_DIGIT n) = n.
Proof.
  intros Hn. do 16 (destruct n as [|n]; [reflexivity|]). lia.
Qed.

Lemma HEX_DIGIT_safe n : always_safe (HEX_DIGIT n) = true.
Proof. do 16 (destruct n as [|n]; [reflexivity|]). reflexivity. Qed.

Lemma nat_of_ascii_inj a b : nat_of_ascii a = nat_of_ascii b -> a = b.
Proof.
  intros H. rewrite <- (ascii_nat_embedding a), <- (ascii_nat_embedding b).
  by rewrite H.
Qed.

Lemma escape_inj a b :
  HEX_DIGIT (nat_of_ascii a / 16) = HEX_DIGIT (nat_of_ascii b / 16) ->
  HEX_DIGIT (nat_of_ascii a mod 16) = HEX_DIGIT (nat_of_ascii b mod 16) ->
  a = b.
Proof.
  intros Hhi Hlo. apply nat_of_ascii_inj.
  pose proof (nat_ascii_bounded a) as Ha.
  pose proof (nat_ascii_bounded b) as Hb.
  apply (f_equal hex_value) in Hhi, Hlo.
  rewrite !hex_value_digit in Hhi, Hlo
    by first [apply Nat.mod_upper_bound; lia
             | apply Nat.Div0.div_lt_upper_bound; lia].
  rewrite (Nat.div_mod_eq (nat_of_ascii a) 16).
  rewrite (Nat.div_mod_eq (nat_of_ascii b) 16). by rewrite Hhi, Hlo.
Qed.

(** Quoting loses nothing: the name can be read back from the result. *)
Lemma quote_inj s t : quote s = quote t -> s = t.
Proof.
  revert t. induction s as [|a s IH]; intros [|b t]; simpl.
  - done.
  - destruct (always_safe b || Ascii.eqb b "/"); discriminate.
  - destruct (always_safe a || Ascii.eqb a "/"); discriminate.
  - destruct (always_safe a || Ascii.eqb a "/") eqn:Ha,
      (always_safe b || Ascii.eqb b "/") eqn:Hb.
    + intros [= -> H]. f_equal. auto.
    + intros [= -> _]. discriminate Ha.
    + intros [= <- _]. discriminate Hb.
    + intros [= Hhi Hlo H]. f_equal; [by apply escape_inj|auto].
Qed.

(** X14: within a category of a produced catalog the URL tells the records
    apart: two records with the same URL are the same record.  (The names
    of the recorded files are valid UTF-8, the generation producing no
    catalog otherwise; a percent sign in a name is itself escaped, so that
    quoting loses nothing.) *)
Theorem urls_distinguish_files w index c docs d1 d2 :
  produces w index -> documents index !! c = Some docs ->
  d1 ∈ docs -> d2 ∈ docs ->
  doc_url d1 = doc_url d2 -> d1 = d2.
Proof.
  intros ->%produces_catalog. rewrite catalog_documents.
  case_decide; [|done].
  intros [= <-] (n1 & _ & ->)%docs_of_shape (n2 & _ & ->)%docs_of_shape.
  unfold document_of. cbn [record doc_url].
  change (path_name (MkPath [c; n1])) with n1.
  change (path_name (MkPath [c; n2])) with n2.
  intros Hurl. do 4 apply append_cancel_l in Hurl.
  by rewrite (quote_inj _ _ Hurl).
Qed.

Lemma quote_chars s : Forall url_char (list_ascii_of_string (quote s)).
Proof.
  induction s as [|a s IH]; simpl; [constructor|].
  destruct (always_safe a || Ascii.eqb a "/") eqn:Ha; simpl.
  - constructor; [|done]. apply orb_true_iff in Ha as [Ha|Ha%Ascii.eqb_eq].
    + by left.
    + right. by left.
  - constructor; [by right; right|].
    do 2 (constructor; [left; apply HEX_DIGIT_safe|]). done.
Qed.

Lemma quote_safe s :
  Forall (fun a => always_safe a = true) (list_ascii_of_string s) ->
  quote s = s.
Proof.
  induction s as [|a s IH]; simpl; [done|].
  intros [Ha Hs]%Forall_cons. rewrite Ha. simpl. by rewrite IH.
Qed.

(** X15: the file-name part of a record's URL is made of letters, digits,
    [_ . - ~], [/] and [%] only, every other byte of the name being written
    as [%] and two upper-case hexadecimal digits; a name made of letters,
    digits and [_ . - ~] stands in the URL as it is. *)
Theorem urls_are_escaped w index c docs d :
  produces w index -> documents index !! c = Some docs -> d ∈ docs ->
  doc_url d = BASE_URL +:+ "/" +:+ c +:+ "/" +:+ quote (doc_filename d)
  /\ Forall url_char (list_ascii_of_string (quote (doc_filename d)))
  /\ (Forall (fun a => always_safe a = true)
        (list_ascii_of_string (doc_filename d)) ->
      doc_url d = BASE_URL +:+ "/" +:+ c +:+ "/" +:+ doc_filename d).
Proof.
  intros ->%produces_catalog. rewrite catalog_documents.
  case_decide; [|done]. intros [= <-] (name & _ & ->)%docs_of_shape.
  unfold document_of. cbn [record doc_url doc_filename].
  split_and!; [done|apply quote_chars|].
  intros Hsafe. by rewrite (quote_safe _ Hsafe).
Qed.

Lemma urls_distinguish_files_witness :
  document_of sample_world "vedtekter" (MkPath ["vedtekter"; "a.pdf"])
  = document_of sample_world "vedtekter" (MkPath ["vedtekter"; "a.pdf"]).
Proof.
  apply (urls_distinguish_files sample_world (catalog sample_world)
           "vedtekter" (docs_of sample_world "vedtekter") _ _
           sample_produces).
  - vm_compute. reflexivity.
  - apply list_elem_of_In. vm_compute.
    repeat first [left; reflexivity | right].
  - apply list_elem_of_In. vm_compute.
    repeat first [left; reflexivity | right].
  - reflexivity.
Defined.

Lemma urls_are_escaped_witness :
  doc_url (document_of sample_world "vedtekter"
             (MkPath ["vedtekter"; "a.pdf"]))
  = BASE_URL +:+ "/" +:+ "vedtekter" +:+ "/" +:+ "a.pdf".
Proof.
  refine (proj2 (proj2
    (urls_are_escaped sample_world (catalog sample_world) "vedtekter"
       (docs_of sample_world "vedtekter")
       (document_of sample_world "vedtekter" (MkPath ["vedtekter"; "a.pdf"]))
       sample_produces _ _)) _).
  - vm_compute. reflexivity.
  - apply list_elem_of_In. vm_compute.
    repeat first [left; reflexivity | right].
  - repeat constructor.
Defined.

(** ** What the log of a generation tells *)

Section loop_traces.
Context {A S : Type} (P : event -> Prop) (Q : A -> Prop)
  (body : A -> S -> IO S).

Lemma for_in_trace_exists l s :
  (forall x s, Exists P (trace (body x s)) -> Q x) ->
  Exists P (trace (for_in l body s)) -> Exists Q l.
Proof.
  intros HQ. revert s. induction l as [|x l IH]; intros s; simpl.
  - by intros ?%Exists_nil.
  - rewrite trace_bind, Exists_app, Exists_cons. intros [H|H]; [eauto|].
    destruct (result (body x s)); [eauto|]. by apply Exists_nil in H.
Qed.

Lemma for_in_trace_exists_returned (f : S -> A -> S) (ok : A -> bool) l s :
  (forall x s, ok x = true -> result (body x s) = Ret (f s x)) ->
  (forall x s, ok x = true -> Q x -> Exists P (trace (body x s))) ->
  forallb ok l = true ->
  Exists Q l -> Exists P (trace (for_in l body s)).
Proof.
  intros Hres HQ. revert s. induction l as [|x l IH]; intros s; simpl.
  - by intros _ ?%Exists_nil.
  - intros [Hx Hl]%andb_true_iff.
    rewrite trace_bind, Hres, Exists_app, Exists_cons by done.
    intros [H|H]; auto.
Qed.
End loop_traces.

Lemma get_file_info_error w p :
  Exists is_error_line (trace (get_file_info w p)) <-> metadata_fails w p.
Proof.
  unfold metadata_fails, get_file_info.
  destruct (os_stat w p) as [[sz [m|?]]|?]; simpl.
  - destruct (read_bytes w p); unfold trace; simpl.
    + by rewrite Exists_nil.
    + split; [done|]. intros _. by left.
  - unfold trace; simpl. split; [done|]. intros _. by left.
  - unfold trace; simpl. split; [done|]. intros _. by left.
Qed.

Lemma scan_file_error w c p s :
  Exists is_error_line (trace (scan_file w c p s)) <-> metadata_fails w p.
Proof. rewrite scan_file_trace. apply get_file_info_error. Qed.

Lemma scan_category_trace w c b :
  trace (scan_category w c b)
  = if path_exists w (path_of c) && is_dir w (path_of c)
    then
      let loop := for_in (sorted (glob_pdf w (path_of c))) (scan_file w c)
                    (MkScan [] 0 (b_total_documents b) (b_total_size b)) in
      EvLog "INFO" [Str "Processing category: "; Str c]
      :: trace loop
      ++ match result loop with
         | Ret s =>
             [EvLog "INFO"
                [Str "Found "; Num (Z.of_nat (length (sc_documents s)));
                 Str " documents in "; Str c; Str " (";
                 NumGrouped (sc_category_size s); Str " bytes)"]]
         | Raise _ => []
         end
    else [].
Proof.
  unfold scan_category. cbv zeta.
  destruct (path_exists w (path_of c) && is_dir w (path_of c));
    [|reflexivity].
  destruct (for_in (sorted (glob_pdf w (path_of c))) (scan_file w c)
              (MkScan [] 0 (b_total_documents b) (b_total_size b)))
    as [t [s|e]]; unfold trace, result; cbn; by rewrite ?app_nil_r.
Qed.

Lemma scan_category_error w c b :
  Exists is_error_line (trace (scan_category w c b)) ->
  Exists (metadata_fails w) (pdf_paths w c).
Proof.
  rewrite scan_category_trace. unfold pdf_paths.
  destruct (path_exists w (path_of c) && is_dir w (path_of c));
    [|by intros ?%Exists_nil].
  cbv zeta. rewrite Exists_cons, Exists_app. intros [?|[H|H]]; [done| |].
  - revert H. apply for_in_trace_exists. intros p s. apply scan_file_error.
  - destruct (result _); [|by apply Exists_nil in H].
    apply Exists_cons in H as [?|?%Exists_nil]; done.
Qed.

Lemma scan_category_error_logged w c b :
  forallb (encodable_file c) (pdf_paths w c) = true ->
  Exists (metadata_fails w) (pdf_paths w c) ->
  Exists is_error_line (trace (scan_category w c b)).
Proof.
  rewrite scan_category_trace. unfold pdf_paths.
  destruct (path_exists w (path_of c) && is_dir w (path_of c));
    [|by intros _ ?%Exists_nil].
  intros Hok Hfail. cbv zeta. rewrite Exists_cons, Exists_app.
  right. left.
  apply (for_in_trace_exists_returned _ (metadata_fails w) _
           (next_scan w c) (encodable_file c)); try done.
  - apply scan_file_result.
  - intros p s _. apply scan_file_error.
Qed.

Lemma build_index_error w cats :
  Exists is_error_line (trace (build_index w cats)) ->
  Exists (fun c => Exists (metadata_fails w) (pdf_paths w c)) cats.
Proof.
  unfold build_index. rewrite trace_bind, Exists_app. intros [H|H].
  - revert H. apply for_in_trace_exists. apply scan_category_error.
  - destruct (result _); by apply Exists_nil in H.
Qed.

Lemma build_index_error_logged w cats :
  scannable w cats = true ->
  Exists (fun c => Exists (metadata_fails w) (pdf_paths w c)) cats ->
  Exists is_error_line (trace (build_index w cats)).
Proof.
  intros Hok Hfail. unfold build_index. rewrite trace_bind, Exists_app.
  left.
  apply (for_in_trace_exists_returned _
           (fun c => Exists (metadata_fails w) (pdf_paths w c)) _
           (next_build w)
           (fun c => forallb (encodable_file c) (pdf_paths w c))); try done.
  - apply scan_category_result.
  - intros c b. apply scan_category_error_logged.
Qed.

Lemma written_no_error w : ~ Exists is_error_line (written w).
Proof.
  unfold written. rewrite Exists_cons.
  destruct (dump_json w "pdf-index.json");
    rewrite ?Exists_cons, Exists_nil; simpl; intros H;
    repeat destruct H as [H|H]; done.
Qed.

(** X17: a line of level ERROR in the log of a generation means that some
    matched file of some configured category could not be read: neither a
    failed write of the catalog file nor a name that cannot be encoded is
    reported by the generation itself.  And when the generation has
    produced a catalog, every unreadable file has left its line: a log
    without ERROR then means every record carries real metadata. *)
Theorem generation_logs_errors w :
  (Exists is_error_line (trace (generate_pdf_index w)) ->
   exists c p,
     c ∈ CATEGORIES /\ p ∈ glob_pdf w (path_of c) /\ metadata_fails w p)
  /\ (forall index c p,
        produces w index ->
        c ∈ CATEGORIES -> p ∈ glob_pdf w (path_of c) -> metadata_fails w p ->
        Exists is_error_line (trace (generate_pdf_index w))).
Proof.
  rewrite generate_pdf_index_trace. split.
  - rewrite Exists_cons, Exists_app. intros [?|[H|H]]; [done| |].
    + apply build_index_error in H.
      apply Exists_exists in H as (c & Hc & H).
      apply Exists_exists in H as (p & Hp%pdf_paths_elem & Hfail).
      by exists c, p.
    + destruct (scannable w CATEGORIES); [|by apply Exists_nil in H].
      by destruct (written_no_error w).
  - intros index c p [Hok _]%produces_scanned Hc Hp Hfail.
    rewrite Exists_cons, Exists_app. right. left.
    apply build_index_error_logged; [done|].
    apply Exists_exists. exists c. split; [done|].
    apply Exists_exists. exists p. split; [by apply pdf_paths_elem|done].
Qed.

Lemma generation_logs_error_witness :
  Exists is_error_line (trace (generate_pdf_index sample_world)).
Proof.
  apply (proj2 (generation_logs_errors sample_world)
           (catalog sample_world) "vedtekter" (MkPath ["vedtekter"; "b.pdf"])).
  - left. vm_compute. reflexivity.
  - apply (bool_decide_unpack _). vm_compute. exact I.
  - apply (bool_decide_unpack _). vm_compute. exact I.
  - vm_compute. exact I.
Defined.

(** X18: the generation returns a catalog exactly when the name of every
    file matched in the configured categories is valid UTF-8 and the
    catalog file can be written.  A matched file whose name is not valid
    UTF-8 makes the generation raise before it tries to write anything, so
    that the catalog file is left as it was. *)
Theorem generation_returns_iff w :
  ((exists index, result (generate_pdf_index w) = Ret index)
   <-> (forall c p,
          c ∈ CATEGORIES -> p ∈ glob_pdf w (path_of c) ->
          valid_utf8 (path_name p) = true)
       /\ dump_json w "pdf-index.json" = Gives tt)
  /\ (forall c p,
        c ∈ CATEGORIES -> p ∈ glob_pdf w (path_of c) ->
        valid_utf8 (path_name p) = false ->
        (exists msg, result (generate_pdf_index w) = Raise (Exception msg))
        /\ forall file obj, EvDump file obj ∉ trace (generate_pdf_index w)).
Proof.
  split; [split|].
  - intros [index (Hok & _ & Hdump)%generate_pdf_index_returns].
    split; [|done]. intros c p. by apply scannable_names.
  - intros [Hok%names_scannable Hdump]. exists (catalog w).
    by rewrite generate_pdf_index_scanned, Hdump.
  - intros c p Hc Hp Hbad.
    assert (scannable w CATEGORIES = false) as Hscan.
    { destruct (scannable w CATEGORIES) eqn:Hok; [|done].
      by rewrite (scannable_names w CATEGORIES c p Hok Hc Hp) in Hbad. }
    split; [by apply generate_pdf_index_aborted|].
    intros file obj Hin%dumps_elem.
    rewrite generate_pdf_index_dumps, Hscan in Hin.
    by apply elem_of_nil in Hin.
Qed.

(** ** Checks against the interpreter *)

Example code_points_examples :
  valid_utf8 "Årsmøte 2024 (ref).pdf" = true
  /\ valid_utf8 (String "255" ".pdf") = false
  /\ valid_utf8 (String "192" (String "175" "")) = false
  /\ valid_utf8 (String "237" (String "160" (String "128" ""))) = false
  /\ length (code_points "særavtale_bntf") = 14%nat
  /\ code_points ("a" +:+ String "226" (String "130" ".pdf"))
     = [Scalar "a"; Surrogate "226"; Surrogate "130";
        Scalar "."; Scalar "p"; Scalar "d"; Scalar "f"].
Proof. by vm_compute. Qed.

Example encode_examples :
  file_id "vedtekter" (MkPath ["vedtekter"; String "255" ".pdf"])
  = ([], Raise (Exception
                  "'utf-8' codec can't encode character '\udcff' in position 10: surrogates not allowed"))
  /\ urllib_quote ("a" +:+ String "226" (String "130" ".pdf"))
     = ([], Raise (Exception
                     "'utf-8' codec can't encode characters in position 1-2: surrogates not allowed"))
  /\ urllib_quote "Årsmøte.pdf" = ([], Ret "%C3%85rsm%C3%B8te.pdf").
Proof. by vm_compute. Qed.

(** U+00E9, then the surrogates for the bytes 80 and FF, then U+E000. *)
Example sorted_undecodable :
  path_name
    <$> sorted (path_div (path_of "d")
                  <$> [String "255" ".pdf";
                       String "238" (String "128" (String "128" ".pdf"));
                       "é.pdf"; String "128" ".pdf"; "a.pdf"])
  = ["a.pdf"; "é.pdf"; String "128" ".pdf"; String "255" ".pdf";
     String "238" (String "128" (String "128" ".pdf"))].
Proof. by vm_compute. Qed.

Example quote_utf8 :
  quote "Årsmøte 2024 (ref).pdf" = "%C3%85rsm%C3%B8te%202024%20%28ref%29.pdf".
Proof. reflexivity. Qed.

Example stem_examples :
  path_stem (MkPath ["x"; "archive.tar.pdf"]) = "archive.tar"
  /\ path_stem (MkPath ["x"; ".pdf"]) = ".pdf"
  /\ path_stem (MkPath ["x"; "a.pdf"]) = "a".
Proof. by vm_compute. Qed.

Example strip_examples :
  strip (String " " (String "009" (" M x.pdf" +:+ String "010" (String "028" ""))))
  = "M x.pdf"
  /\ strip "   " = ""
  /\ strip "　a" = "a".
Proof. by vm_compute. Qed.

Example sorted_examples :
  path_name <$> sorted (path_div (path_of "d")
                          <$> ["B.pdf"; "a.pdf"; "Z.pdf"; "æ.pdf"; "a b.pdf";
                               "ab.pdf"])
  = ["B.pdf"; "Z.pdf"; "a b.pdf"; "a.pdf"; "ab.pdf"; "æ.pdf"].
Proof. by vm_compute. Qed.

Example sample_catalog :
  totalDocuments (statistics (catalog sample_world)) = 3
  /\ totalSize (statistics (catalog sample_world)) = 2048
  /\ categoryCounts (statistics (catalog sample_world)) !! "vedtekter" = Some 3
  /\ categoryCounts (statistics (catalog sample_world)) !! "other" = Some 0
  /\ (doc_id <$> docs_of sample_world "vedtekter")
     = ["637d7ed45c4d"; "48eecd640f51"; "304b87770175"].
Proof. by vm_compute. Qed.

Example sample_exit_codes :
  exit_code (main sample_world) = 0
  /\ exit_code (main sample_world_unchanged) = 1
  /\ exit_code (main sample_world_no_git) = 1.
Proof. by vm_compute. Qed.
